(** * BigLinux Welcome: the browser-installation progress pipeline

    A shallow embedding of the installation pipeline of
    [usr/share/biglinux/welcome]:

    - [window._flush_line_buffer] and the read loop of
      [WelcomeWindow._read_process_output] (the line splitter);
    - [InstallPanel._get_line_tag] (the line classifier);
    - [InstallPanel._MILESTONES], [_PHASE_LABELS], [_CANCEL_CUTOFF],
      [_RE_DOWNLOAD], [_parse_progress], [append_log], [set_progress] and
      [_on_cancel] (the progress estimator and the cancel control);
    - [WelcomeWindow._perform_browser_install] (the outcome of an attempt).

    Modelling conventions.

    - Python [bytes] are [list byte].  Python [str] is a [string] holding
      the UTF-8 encoding of the text, which is how a Rocq string literal
      stores a character such as the ellipsis of the phase labels.
    - [Py.lower], [Py.strip] and the classes [\d] and [\s] of [Re] act on
      the ASCII range, where every keyword, prefix and pattern of the
      program lives; cased letters, digits and blanks outside ASCII are
      left alone.  Python's own [str.lower], [str.strip], [re] and [int]
      are Unicode-aware: [UPanel] and [Utils.parse_line] take them as
      arguments, and [Text] says where the ASCII functions stand for them.
    - Python floats are read as the rationals their literals denote
      ([0.20] is [20 # 100]) and float arithmetic is exact arithmetic in
      [Q]; in [UPanel] the floats computed in the download phase are
      arguments too.
    - [gettext] is the identity (the untranslated locale).
    - The widgets are a record of the values the code stores into them. *)

From Stdlib Require Import QArith Qround ZArith String Ascii List Bool Lia.
From Stdlib Require Import Strings.Byte Numbers.DecimalString Sorting.Sorted.
From Equations.Prop Require Import Equations Logic.
Import ListNotations.

Local Open Scope string_scope.

(** ** Python built-ins used by the program *)

Module Py.

(** *** [str] *)

Definition is_upper (c : ascii) : bool :=
  let n := N_of_ascii c in ((65 <=? n) && (n <=? 90))%N.

Definition lower_char (c : ascii) : ascii :=
  if is_upper c then ascii_of_N (N_of_ascii c + 32) else c.

(** [s.lower()] *)
Fixpoint lower (s : string) : string :=
  match s with
  | "" => ""
  | String c r => String (lower_char c) (lower r)
  end.

(** [str.isspace] on one character: TAB, LF, VT, FF, CR, the separators
    FS, GS, RS, US, and the space. *)
Definition is_space (c : ascii) : bool :=
  let n := N_of_ascii c in
  (((9 <=? n) && (n <=? 13)) || ((28 <=? n) && (n <=? 32)))%N.

Fixpoint lstrip (s : string) : string :=
  match s with
  | "" => ""
  | String c r => if is_space c then lstrip r else s
  end.

Fixpoint rstrip (s : string) : string :=
  match s with
  | "" => ""
  | String c r =>
      match rstrip r with
      | "" => if is_space c then "" else String c ""
      | r' => String c r'
      end
  end.

(** [s.strip()] *)
Definition strip (s : string) : string := rstrip (lstrip s).

(** [s.startswith(p)] *)
Definition startswith (s p : string) : bool := String.prefix p s.

(** [s.startswith((p1, ..., pn))] *)
Definition startswith_any (s : string) (ps : list string) : bool :=
  existsb (startswith s) ps.

(** [p in s] *)
Fixpoint contains (p s : string) : bool :=
  startswith s p ||
  match s with
  | "" => false
  | String _ r => contains p r
  end.

(** [s.replace(old, new)] for a non-empty [old]: every occurrence, left
    to right, without overlap.  [skip] counts the characters of an
    occurrence that are still to be dropped. *)
Fixpoint replace_from (skip : nat) (old new s : string) : string :=
  match s with
  | "" => ""
  | String c r =>
      match skip with
      | S k => replace_from k old new r
      | O =>
          if startswith s old
          then new ++ replace_from (String.length old - 1) old new r
          else String c (replace_from 0 old new r)
      end
  end.

Definition replace (s old new : string) : string := replace_from 0 old new s.

(** [not s], the truth value of a string *)
Definition is_empty (s : string) : bool :=
  match s with "" => true | _ => false end.

(** *** [int] and number formatting *)

Definition is_digit (c : ascii) : bool :=
  let n := N_of_ascii c in ((48 <=? n) && (n <=? 57))%N.

Definition digit_value (c : ascii) : Z := Z.of_N (N_of_ascii c) - 48.

Fixpoint int_digits (acc : Z) (s : string) : option Z :=
  match s with
  | "" => Some acc
  | String c r =>
      if is_digit c then int_digits (10 * acc + digit_value c) r else None
  end.

(** [int(s)] on an unsigned decimal literal as the pattern captures it;
    [None] is the [ValueError] of anything else. *)
Definition int_of_str (s : string) : option Z :=
  match s with
  | "" => None
  | _ => int_digits 0 s
  end.

(** [int(x)] on a float: truncation towards zero. *)
Definition int_of_float (x : Q) : Z :=
  if Qle_bool 0 x then Qfloor x else Qceiling x.

(** [x < y], [x <= y], [min] and [max] on floats *)
Definition ltb (x y : Q) : bool := negb (Qle_bool y x).
Definition leb (x y : Q) : bool := Qle_bool x y.
Definition fmin (x y : Q) : Q := if ltb y x then y else x.
Definition fmax (x y : Q) : Q := if ltb x y then y else x.

(** [str(n)] / [f"{n}"] on an integer *)
Definition str_of_int (n : Z) : string := NilZero.string_of_int (Z.to_int n).

(** *** [bytes] *)

Definition LF : byte := x0a.
Definition CR : byte := x0d.

(** [b in buf] for a one-byte [b] *)
Definition bcontains (c : byte) (buf : list byte) : bool :=
  existsb (Byte.eqb c) buf.

(** [buf.find(b)] for a one-byte [b]: the first index, or [-1] *)
Fixpoint bfind (c : byte) (buf : list byte) : Z :=
  match buf with
  | [] => -1
  | x :: r =>
      if Byte.eqb x c then 0
      else let i := bfind c r in if (i <? 0)%Z then -1 else (i + 1)%Z
  end.

(** [buf[:i]] and [buf[i:]] for [0 <= i] *)
Definition slice_to (buf : list byte) (i : Z) : list byte :=
  firstn (Z.to_nat i) buf.
Definition slice_from (buf : list byte) (i : Z) : list byte :=
  skipn (Z.to_nat i) buf.

(** *** [bytes.decode("utf-8", errors="replace")]

    Well-formed sequences are copied; each maximal ill-formed prefix of
    a sequence becomes one U+FFFD. *)

Definition between (lo hi : N) (b : byte) : bool :=
  let n := Byte.to_N b in ((lo <=? n) && (n <=? hi))%N.

Definition is_cont (b : byte) : bool := between 128 191 b.

Definition chars (bs : list byte) : string := string_of_list_byte bs.

(** U+FFFD in UTF-8: EF BF BD *)
Definition REPLACEMENT : string := chars [xef; xbf; xbd].

(** The range of the second byte after the lead byte [b0] of a three- or
    four-byte sequence. *)
Definition second_lo (b0 : byte) : N :=
  if Byte.eqb b0 xe0 then 160 else if Byte.eqb b0 xf0 then 144 else 128.
Definition second_hi (b0 : byte) : N :=
  if Byte.eqb b0 xed then 159 else if Byte.eqb b0 xf4 then 143 else 191.

Fixpoint decode (bs : list byte) : string :=
  match bs with
  | [] => ""
  | b0 :: r0 =>
      if between 0 127 b0 then String (ascii_of_byte b0) (decode r0)
      else if between 194 223 b0 then
        match r0 with
        | b1 :: r1 =>
            if is_cont b1 then chars [b0; b1] ++ decode r1
            else REPLACEMENT ++ decode r0
        | [] => REPLACEMENT
        end
      else if between 224 239 b0 then
        match r0 with
        | b1 :: r1 =>
            if between (second_lo b0) (second_hi b0) b1 then
              match r1 with
              | b2 :: r2 =>
                  if is_cont b2 then chars [b0; b1; b2] ++ decode r2
                  else REPLACEMENT ++ decode r1
              | [] => REPLACEMENT
              end
            else REPLACEMENT ++ decode r0
        | [] => REPLACEMENT
        end
      else if between 240 244 b0 then
        match r0 with
        | b1 :: r1 =>
            if between (second_lo b0) (second_hi b0) b1 then
              match r1 with
              | b2 :: r2 =>
                  if is_cont b2 then
                    match r2 with
                    | b3 :: r3 =>
                        if is_cont b3
                        then chars [b0; b1; b2; b3] ++ decode r3
                        else REPLACEMENT ++ decode r2
                    | [] => REPLACEMENT
                    end
                  else REPLACEMENT ++ decode r1
              | [] => REPLACEMENT
              end
            else REPLACEMENT ++ decode r0
        | [] => REPLACEMENT
        end
      else REPLACEMENT ++ decode r0
  end.

(** A bytes literal written as text, and one followed by a terminator. *)
Definition b (s : string) : list byte := list_byte_of_string s.

End Py.

(** ** The line splitter ([window.py]) *)

(** What [GLib.idle_add] queues for the panel: [panel.append_log(line)] for
    a log line, [panel.parse_progress(line)] for a progress-update line.
    The queue keeps the order of the calls. *)
Inductive dispatch : Type :=
| AppendLog (line : string)
| ParseProgress (line : string).

Module Splitter.
Import Py.
Local Open Scope list_scope.

(** The head of one iteration of the [while] loop of
    [_flush_line_buffer]: [None] when the loop is left (its condition is
    false, or the [break] of the last [else]), otherwise
    [(is_newline, bytes of the line, rest of the buffer)]. *)
Definition next_line (buf : list byte) : option (bool * list byte * list byte) :=
  if bcontains LF buf || bcontains CR buf then
    let idx_n := bfind LF buf in
    let idx_r := bfind CR buf in
    let is_newline :=
      ((idx_n >=? 0) && ((idx_r <? 0) || (idx_n <=? idx_r)))%Z in
    if is_newline then
      Some (true, slice_to buf idx_n, slice_from buf (idx_n + 1))
    else if (idx_r >=? 0)%Z then
      Some (false, slice_to buf idx_r, slice_from buf (idx_r + 1))
    else None
  else None.

(** The tail of the iteration: the [continue] on an empty or control
    line, otherwise the dispatch chosen by [is_newline]. *)
Definition emit (is_newline : bool) (line : string) : list dispatch :=
  if is_empty line || startswith line "STATUS:" then []
  else if is_newline then [AppendLog line]
  else [ParseProgress line].

Lemma bfind_bounds c buf : (-1 <= bfind c buf < Z.of_nat (length buf))%Z.
Proof.
  induction buf as [|x r IH]; cbn [bfind length]; [lia|].
  destruct (Byte.eqb x c); [lia|].
  destruct (bfind c r <? 0)%Z eqn:E; lia.
Qed.

Lemma next_line_shorter buf nl l rest :
  next_line buf = Some (nl, l, rest) -> (length rest < length buf)%nat.
Proof.
  unfold next_line, slice_from.
  pose proof (bfind_bounds LF buf). pose proof (bfind_bounds CR buf).
  destruct (bcontains LF buf || bcontains CR buf); [|discriminate].
  destruct ((bfind LF buf >=? 0)%Z && _) eqn:E.
  - intros [= <- <- <-]. rewrite length_skipn.
    apply andb_prop in E as [E _]. lia.
  - destruct (bfind CR buf >=? 0)%Z eqn:E'; [|discriminate].
    intros [= <- <- <-]. rewrite length_skipn. lia.
Qed.

(** [_flush_line_buffer(buf, panel)]: the calls queued for the panel, in
    order, and the returned remainder. *)
Equations? flush_line_buffer (buf : list byte) : list dispatch * list byte
  by wf (length buf) lt :=
  flush_line_buffer buf with inspect (next_line buf) := {
    | exist _ None _ => ([], buf)
    | exist _ (Some (is_newline, l, rest)) _ =>
        let r := flush_line_buffer rest in
        (emit is_newline (decode l) ++ fst r, snd r) }.
Proof. eapply next_line_shorter; eassumption. Qed.

End Splitter.


(** ** A backtracking matcher for the patterns of [re]

    The fragment of Python's [re] that [_RE_DOWNLOAD] is written in:
    character classes, literals, concatenation, a greedy optional group,
    greedy and lazy repetition of a class, and numbered capture groups.
    Alternatives are tried in the order the backtracking engine of [re]
    tries them, and the first complete match wins. *)

Module Re.

Inductive re : Type :=
| Lit (s : string)                      (* the characters of [s] *)
| Cls (p : ascii -> bool)               (* one character of a class *)
| Cat (r1 r2 : re)                      (* r1 r2 *)
| Opt (r : re)                          (* (?:r)? *)
| Rep (p : ascii -> bool) (lo : nat) (hi : option nat) (greedy : bool)
                                        (* p{lo,hi}, p+, p*, and p*? *)
| Grp (i : nat) (r : re).               (* (r), the group numbered i *)

(** The groups captured so far, the latest first. *)
Definition captures : Type := list (nat * string).

Definition cont : Type := string -> captures -> option captures.

Definition or_else {A} (x y : option A) : option A :=
  match x with Some _ => x | None => y end.

(** The text between a position [s] and a later position [s']. *)
Definition consumed (s s' : string) : string :=
  substring 0 (String.length s - String.length s') s.

Definition may_repeat (hi : option nat) : bool :=
  match hi with Some O => false | _ => true end.

Fixpoint rep (p : ascii -> bool) (greedy : bool) (lo : nat) (hi : option nat)
    (s : string) (cs : captures) (k : cont) : option captures :=
  let stop := match lo with O => k s cs | S _ => None end in
  let more :=
    match s with
    | String c r =>
        if p c && may_repeat hi
        then rep p greedy (Nat.pred lo) (option_map Nat.pred hi) r cs k
        else None
    | "" => None
    end in
  if greedy then or_else more stop else or_else stop more.

Fixpoint lit (l s : string) : option string :=
  match l, s with
  | "", _ => Some s
  | String a l', String c s' => if Ascii.eqb a c then lit l' s' else None
  | String _ _, "" => None
  end.

Fixpoint run (r : re) (s : string) (cs : captures) (k : cont) : option captures :=
  match r with
  | Lit l => match lit l s with Some s' => k s' cs | None => None end
  | Cls p =>
      match s with
      | String c s' => if p c then k s' cs else None
      | "" => None
      end
  | Cat r1 r2 => run r1 s cs (fun s' cs' => run r2 s' cs' k)
  | Opt r1 => or_else (run r1 s cs k) (k s cs)
  | Rep p lo hi greedy => rep p greedy lo hi s cs k
  | Grp i r1 => run r1 s cs (fun s' cs' => k s' ((i, consumed s s') :: cs'))
  end.

(** [pattern.match(s)]: a match that starts at the first character. *)
Definition match_here (r : re) (s : string) : option captures :=
  run r s [] (fun _ cs => Some cs).

(** [pattern.search(s)]: the match at the leftmost start that has one. *)
Fixpoint search (r : re) (s : string) : option captures :=
  or_else (match_here r s)
    match s with
    | String _ s' => search r s'
    | "" => None
    end.

(** [m.group(i)] of a group that took part in the match *)
Fixpoint group (cs : captures) (i : nat) : string :=
  match cs with
  | [] => ""
  | (j, t) :: r => if Nat.eqb i j then t else group r i
  end.

(** Every character of [s] is in the class [p]. *)
Fixpoint all_chars (p : ascii -> bool) (s : string) : bool :=
  match s with
  | "" => true
  | String c r => p c && all_chars p r
  end.

(** The classes of the pattern. *)
Definition digit : ascii -> bool := Py.is_digit.            (* \d *)
Definition space : ascii -> bool := Py.is_space.            (* \s *)
Definition dot (c : ascii) : bool := negb (Ascii.eqb c "010").   (* . *)
Definition one_of (set : string) (c : ascii) : bool :=      (* [...] *)
  existsb (Ascii.eqb c) (list_ascii_of_string set).

End Re.

(** ** ASCII text

    On text that holds ASCII characters only, Python's Unicode-aware
    [str.lower] and [str.strip] are the ASCII functions [Py.lower] and
    [Py.strip]. *)

Module Text.

Definition is_ascii (c : ascii) : bool := (N_of_ascii c <? 128)%N.

Definition ascii_only (s : string) : bool := Re.all_chars is_ascii s.

(** [f], a function of Python on Unicode text, does on ASCII text what [g]
    does. *)
Definition agrees_on_ascii (f g : string -> string) : Prop :=
  forall s, ascii_only s = true -> f s = g s.

End Text.

(** ** The install panel ([widgets.py]) *)

Module InstallPanel.
Import Py.
Local Open Scope Q_scope.

(** *** Class-level tables *)

Definition MILESTONES : list (string * Q) :=
  [ ("synchronizing", 0.05);
    ("resolving dependencies", 0.10);
    ("looking for conflicting", 0.15);
    ("retrieving", 0.20);
    ("checking key", 0.55);
    ("checking package integrity", 0.60);
    ("loading package", 0.65);
    ("checking for file conflicts", 0.70);
    ("checking available disk space", 0.75);
    ("processing package changes", 0.80);
    ("installing", 0.85);
    ("upgrading", 0.85);
    ("running post-transaction hooks", 0.95) ]%list.

Definition PHASE_LABELS : list (string * string) :=
  [ ("synchronizing", "Synchronizing databases…");
    ("resolving dependencies", "Resolving dependencies…");
    ("looking for conflicting", "Checking for conflicts…");
    ("retrieving", "Downloading packages…");
    ("checking key", "Verifying signatures…");
    ("checking package integrity", "Verifying integrity…");
    ("loading package", "Loading packages…");
    ("checking for file conflicts", "Checking for conflicts…");
    ("checking available disk space", "Checking disk space…");
    ("processing package changes", "Applying changes…");
    ("installing", "Installing…");
    ("upgrading", "Upgrading…");
    ("running post-transaction hooks", "Running post-install hooks…") ]%list.

(** [d.get(key, default)] *)
Fixpoint dict_get (d : list (string * string)) (key default : string) : string :=
  match d with
  | [] => default
  | (k, v) :: r => if String.eqb k key then v else dict_get r key default
  end%list.

Definition CANCEL_CUTOFF : Q := 0.80.

(** [(\d+(?:\.\d+)?\s*[KMG]iB/s).*?(\d{1,3})%] *)
Definition RE_DOWNLOAD : Re.re :=
  Re.Cat
    (Re.Grp 1
       (Re.Cat (Re.Rep Re.digit 1 None true)
       (Re.Cat (Re.Opt (Re.Cat (Re.Lit ".") (Re.Rep Re.digit 1 None true)))
       (Re.Cat (Re.Rep Re.space 0 None true)
       (Re.Cat (Re.Cls (Re.one_of "KMG"))
               (Re.Lit "iB/s"))))))
    (Re.Cat (Re.Rep Re.dot 0 None false)
    (Re.Cat (Re.Grp 2 (Re.Rep Re.digit 1 (Some 3%nat) true))
            (Re.Lit "%"))).

(** *** The panel

    The attributes of the instance and what its widgets currently show.
    [set_fraction_calls] is the history of the arguments of
    [self._progress.set_fraction], the oldest first; [cancel_callbacks]
    counts the calls of [self._cancel_callback]; [log] is the text
    buffer, a line and its colour tag per entry. *)
Record panel : Type := {
  last_milestone : Q;
  cancelled : bool;
  pulsing : bool;
  set_fraction_calls : list Q;
  percent_label : string;
  title : string;
  subtitle : string;
  accessible_label : string;
  cancel_sensitive : bool;
  cancel_tooltip : string;
  cancel_label : string;
  cancel_callbacks : nat;
  log : list (string * option string)
}.

(** [InstallPanel(browser_label, icon_path)] followed by the
    [panel.start_pulse()] of [_start_install]. *)
Definition new_panel (browser_label : string) : panel := {|
  last_milestone := 0.0;
  cancelled := false;
  pulsing := true;
  set_fraction_calls := [];
  percent_label := "0%";
  title := "Installing " ++ browser_label ++ "…";
  subtitle := "Preparing download…";
  accessible_label := "Installing " ++ browser_label;
  cancel_sensitive := true;
  cancel_tooltip := "";
  cancel_label := "Cancel";
  cancel_callbacks := 0;
  log := []
|}.

(** [self.stop_pulse(); self._progress.set_fraction(x);
    self._percent_label.set_label(f"{int(shown * 100)}%")] *)
Definition show_fraction (x shown : Q) (p : panel) : panel := {|
  last_milestone := last_milestone p;
  cancelled := cancelled p;
  pulsing := false;
  set_fraction_calls := (set_fraction_calls p ++ [x])%list;
  percent_label := str_of_int (int_of_float (shown * 100)) ++ "%";
  title := title p;
  subtitle := subtitle p;
  accessible_label := accessible_label p;
  cancel_sensitive := cancel_sensitive p;
  cancel_tooltip := cancel_tooltip p;
  cancel_label := cancel_label p;
  cancel_callbacks := cancel_callbacks p;
  log := log p
|}.

Definition set_last_milestone (x : Q) (p : panel) : panel := {|
  last_milestone := x;
  cancelled := cancelled p;
  pulsing := pulsing p;
  set_fraction_calls := set_fraction_calls p;
  percent_label := percent_label p;
  title := title p;
  subtitle := subtitle p;
  accessible_label := accessible_label p;
  cancel_sensitive := cancel_sensitive p;
  cancel_tooltip := cancel_tooltip p;
  cancel_label := cancel_label p;
  cancel_callbacks := cancel_callbacks p;
  log := log p
|}.

Definition set_subtitle (t : string) (p : panel) : panel := {|
  last_milestone := last_milestone p;
  cancelled := cancelled p;
  pulsing := pulsing p;
  set_fraction_calls := set_fraction_calls p;
  percent_label := percent_label p;
  title := title p;
  subtitle := t;
  accessible_label := accessible_label p;
  cancel_sensitive := cancel_sensitive p;
  cancel_tooltip := cancel_tooltip p;
  cancel_label := cancel_label p;
  cancel_callbacks := cancel_callbacks p;
  log := log p
|}.

Definition set_accessible_label (t : string) (p : panel) : panel := {|
  last_milestone := last_milestone p;
  cancelled := cancelled p;
  pulsing := pulsing p;
  set_fraction_calls := set_fraction_calls p;
  percent_label := percent_label p;
  title := title p;
  subtitle := subtitle p;
  accessible_label := t;
  cancel_sensitive := cancel_sensitive p;
  cancel_tooltip := cancel_tooltip p;
  cancel_label := cancel_label p;
  cancel_callbacks := cancel_callbacks p;
  log := log p
|}.

(** [self._cancel_btn.set_sensitive(False);
    self._cancel_btn.set_tooltip_text(t)] *)
Definition disable_cancel (t : string) (p : panel) : panel := {|
  last_milestone := last_milestone p;
  cancelled := cancelled p;
  pulsing := pulsing p;
  set_fraction_calls := set_fraction_calls p;
  percent_label := percent_label p;
  title := title p;
  subtitle := subtitle p;
  accessible_label := accessible_label p;
  cancel_sensitive := false;
  cancel_tooltip := t;
  cancel_label := cancel_label p;
  cancel_callbacks := cancel_callbacks p;
  log := log p
|}.

Definition add_log (line : string) (tag : option string) (p : panel) : panel := {|
  last_milestone := last_milestone p;
  cancelled := cancelled p;
  pulsing := pulsing p;
  set_fraction_calls := set_fraction_calls p;
  percent_label := percent_label p;
  title := title p;
  subtitle := subtitle p;
  accessible_label := accessible_label p;
  cancel_sensitive := cancel_sensitive p;
  cancel_tooltip := cancel_tooltip p;
  cancel_label := cancel_label p;
  cancel_callbacks := cancel_callbacks p;
  log := (log p ++ [(line, tag)])%list
|}.

(** *** [_get_line_tag] *)

Definition get_line_tag (line : string) : option string :=
  let lower := strip (lower line) in
  if contains "error" lower || contains "failed" lower then Some "error"
  else if contains "successfully" lower || contains "done" lower then Some "success"
  else if contains "warning" lower then Some "warning"
  else if startswith_any lower ["installing"; "removing"; "checking"; "resolving"; "::"]
  then Some "info"
  else if startswith_any lower ["package"; "total"; "optional"] then Some "dim"
  else None.

(** *** [set_progress] *)

Definition set_progress (fraction : Q) (phase_text : string) (p : panel) : panel :=
  let clamped := fmax 0.0 (fmin 1.0 fraction) in
  let p := show_fraction clamped clamped p in
  if negb (is_empty phase_text) then set_subtitle phase_text p else p.

(** *** [_parse_progress] *)

(** The body of the [if] of the milestone loop, up to its [break]. *)
Definition reach_milestone (keyword : string) (fraction : Q) (p : panel) : panel :=
  let p := set_last_milestone fraction p in
  let p := show_fraction fraction fraction p in
  let label := dict_get PHASE_LABELS keyword "" in
  let p :=
    if negb (is_empty label) then
      let p := set_subtitle label p in
      let pct := int_of_float (fraction * 100) in
      set_accessible_label (label ++ " " ++ str_of_int pct ++ "%") p
    else p in
  if leb CANCEL_CUTOFF fraction
  then disable_cancel "Cannot cancel during installation" p
  else p.

(** [for keyword, fraction in self._MILESTONES: ...]: the panel after the
    loop and [matched_milestone]. *)
Fixpoint milestone_loop (ms : list (string * Q)) (lower : string) (p : panel)
  : panel * bool :=
  match ms with
  | [] => (p, false)
  | (keyword, fraction) :: rest =>
      if contains keyword lower && ltb (last_milestone p) fraction
      then (reach_milestone keyword fraction p, true)
      else milestone_loop rest lower p
  end%list.

(** The download-phase branch on a line that matched the pattern.  A
    [ValueError] of [int] would leave the handler before any widget is
    touched. *)
Definition download_progress (m : Re.captures) (p : panel) : panel :=
  let speed := Re.group m 1 in
  match int_of_str (Re.group m 2) with
  | None => p
  | Some pct =>
      let fraction := 0.20 + (inject_Z pct / 100.0) * 0.35 in
      let p := show_fraction fraction fraction p in
      set_subtitle
        ("Downloading… " ++ str_of_int pct ++ "% (" ++ speed ++ ")") p
  end.

Definition download_phase (line lower : string) (p : panel) : panel :=
  if contains "downloading" lower then
    let name := strip (replace (strip line) "downloading..." "") in
    if negb (is_empty name)
    then set_subtitle ("Downloading " ++ name ++ "…") p
    else p
  else
    match Re.search RE_DOWNLOAD line with
    | Some dl_match => download_progress dl_match p
    | None => p
    end.

Definition in_download_phase (p : panel) : bool :=
  leb 0.05 (last_milestone p) && ltb (last_milestone p) 0.55.

Definition _parse_progress (line : string) (p : panel) : panel :=
  let lower := lower line in
  let '(p, matched_milestone) := milestone_loop MILESTONES lower p in
  if negb matched_milestone && in_download_phase p
  then download_phase line lower p
  else p.

Definition parse_progress (line : string) (p : panel) : panel :=
  _parse_progress line p.

(** *** [append_log] *)

Definition append_log (line : string) (p : panel) : panel :=
  _parse_progress line (add_log line (get_line_tag line) p).

(** *** [_on_cancel] *)

Definition _on_cancel (p : panel) : panel := {|
  last_milestone := last_milestone p;
  cancelled := true;
  pulsing := pulsing p;
  set_fraction_calls := set_fraction_calls p;
  percent_label := percent_label p;
  title := title p;
  subtitle := "Cancelling installation…";
  accessible_label := accessible_label p;
  cancel_sensitive := false;
  cancel_tooltip := cancel_tooltip p;
  cancel_label := "Cancelling…";
  cancel_callbacks := S (cancel_callbacks p);
  log := log p
|}.

(** *** The panel on the UI thread

    What reaches the panel while an installation runs: the calls queued by
    the worker, in the order they were queued, and the clicks of the user
    on the cancel button.  The button is connected to [_on_cancel] by its
    [clicked] signal, which an insensitive button does not emit. *)
Inductive ui_event : Type :=
| Queued (d : dispatch)
| CancelClicked.

Definition ui_step (p : panel) (e : ui_event) : panel :=
  match e with
  | Queued (AppendLog line) => append_log line p
  | Queued (ParseProgress line) => parse_progress line p
  | CancelClicked => if cancel_sensitive p then _on_cancel p else p
  end.

Definition ui_run (es : list ui_event) (p : panel) : panel :=
  fold_left ui_step es p.

(** A session: the panel of one installation, from its creation on. *)
Definition session (browser_label : string) (es : list ui_event) : panel :=
  ui_run es (new_panel browser_label).

End InstallPanel.


(** ** The worker ([window.py]) *)

Module Window.
Import Py Splitter.
Local Open Scope list_scope.

(** *** [_read_process_output]

    One turn of the [while True] loop, as the worker sees it: [select]
    timed out, or [os.read] returned [chunk] while [panel.cancelled] read
    [cancel_seen]. *)
Inductive poll : Type :=
| Stalled
| Readable (chunk : list byte) (cancel_seen : bool).

(** How the loop was left: at the end of the stream, or after
    [proc.terminate()]. *)
Inductive loop_exit : Type :=
| EndOfStream
| Terminated.

(** The flush of the last fragment at the end of the stream. *)
Definition flush_at_eof (buf : list byte) : list dispatch :=
  match buf with
  | [] => []
  | _ =>
      let line := decode buf in
      if startswith line "STATUS:" then [] else [AppendLog line]
  end.

(** The calls queued over the given turns, and how the loop was left;
    [None] while it is still polling after the last of them. *)
Fixpoint read_loop (polls : list poll) (buf : list byte) (stall_notified : bool)
  : list dispatch * option loop_exit :=
  match polls with
  | [] => ([], None)
  | Stalled :: rest =>
      let r := read_loop rest buf true in
      if stall_notified then r
      else (AppendLog "Still working…" :: fst r, snd r)
  | Readable chunk cancel_seen :: rest =>
      match chunk with
      | [] => (flush_at_eof buf, Some EndOfStream)
      | _ =>
          if cancel_seen then ([], Some Terminated)
          else
            let '(ds, buf') := flush_line_buffer (buf ++ chunk) in
            let r := read_loop rest buf' false in
            (ds ++ fst r, snd r)
      end
  end.

Definition read_process_output (polls : list poll)
  : list dispatch * option loop_exit :=
  read_loop polls [] false.

(** The buffer over a run of chunks: [buf += chunk;
    buf = _flush_line_buffer(buf, panel)] for each of them. *)
Fixpoint feed (chunks : list (list byte)) (buf : list byte)
  : list dispatch * list byte :=
  match chunks with
  | [] => ([], buf)
  | chunk :: rest =>
      let '(ds, buf') := flush_line_buffer (buf ++ chunk) in
      let '(ds', buf'') := feed rest buf' in
      (ds ++ ds', buf'')
  end.

(** *** [_perform_browser_install] *)

(** What becomes of the child inside the [try]: [Popen] raises, the
    output was not captured, reading raises, [proc.wait(timeout=600)]
    raises [TimeoutExpired], or the child exits with a return code. *)
Inductive child : Type :=
| SpawnError
| NoStdout
| ReadError
| WaitTimeout
| Exited (returncode : Z).

Inductive outcome : Type :=
| Succeeded      (* _post_install_set_default, then _finish_install *)
| Failed         (* panel.set_error *)
| Cancelled.     (* _finish_install alone *)

(** [panel.cancelled] is read twice: in the [try] after the wait, and
    after the [try]. *)
Definition perform_browser_install
    (c : child) (cancelled_after_wait cancelled_at_end : bool) : outcome :=
  let success :=
    match c with
    | Exited returncode => (returncode =? 0)%Z && negb cancelled_after_wait
    | _ => false
    end in
  if cancelled_at_end then Cancelled
  else if success then Succeeded
  else Failed.

End Window.

(** ** Page navigation ([widgets.ProgressDots], [window.py]) *)

Module Navigation.
Import Py.
Local Open Scope list_scope.

(** A dot of the progress indicator: whether it carries the CSS classes
    [active] and [completed], and its tooltip. *)
Record dot : Type := {
  active : bool;
  completed : bool;
  tooltip : string
}.

Record progress_dots : Type := {
  page_titles : list string;
  dots : list dot;
  accessible_label : string
}.

(** [ProgressDots._get_title] *)
Definition _get_title (page_titles : list string) (index : nat) : string :=
  if (index <? length page_titles)%nat then nth index page_titles "" else "".

(** The label [_update_accessible_description] computes. *)
Definition accessible_description (page_titles : list string) (total page : nat)
  : string :=
  let title := _get_title page_titles page in
  let desc :=
    (str_of_int (Z.of_nat page + 1) ++ "/" ++ str_of_int (Z.of_nat total))%string in
  if negb (is_empty title) then (title ++ " — " ++ desc)%string else desc.

(** The loop of [ProgressDots.__init__] from index [i] on. *)
Fixpoint init_dots (page_titles : list string) (i count : nat) : list dot :=
  match count with
  | O => []
  | S k =>
      {| active := (i =? 0)%nat; completed := false;
         tooltip := _get_title page_titles i |}
        :: init_dots page_titles (S i) k
  end.

(** [ProgressDots(total, page_titles)] *)
Definition new_progress_dots (total : nat) (page_titles : list string)
  : progress_dots := {|
  page_titles := page_titles;
  dots := init_dots page_titles 0 total;
  accessible_label := accessible_description page_titles total 0
|}.

(** The loop of [set_page] over [enumerate(self.dots)] from index [i] on:
    both classes are removed, then one of them may be added. *)
Fixpoint mark_dots (i page : nat) (ds : list dot) : list dot :=
  match ds with
  | [] => []
  | d :: r =>
      {| active := (i =? page)%nat;
         completed := negb (i =? page)%nat && (i <? page)%nat;
         tooltip := tooltip d |}
        :: mark_dots (S i) page r
  end.

(** [ProgressDots.set_page] *)
Definition set_page (page : nat) (pd : progress_dots) : progress_dots := {|
  page_titles := page_titles pd;
  dots := mark_dots 0 page (dots pd);
  accessible_label :=
    accessible_description (page_titles pd) (length (dots pd)) page
|}.

Inductive transition : Type :=
| SLIDE_LEFT_RIGHT
| SLIDE_LEFT
| SLIDE_RIGHT.

(** The navigation state of the window: [current_page],
    [len(self.page_widgets)], the visible child of the stack and its
    transition, the back button, the style of the next button, the
    progress indicator, and whether [close()] was called. *)
Record window : Type := {
  current_page : nat;
  page_count : nat;
  visible_child : string;
  stack_transition : transition;
  back_visible : bool;
  next_is_finish : bool;
  progress : progress_dots;
  closed : bool
}.

(** The window after [__init__] for a [pages.yaml] holding pages with the
    given titles: the welcome page comes first. *)
Definition new_window (titles : list string) : window := {|
  current_page := 0;
  page_count := 1 + length titles;
  visible_child := "welcome";
  stack_transition := SLIDE_LEFT_RIGHT;
  back_visible := false;
  next_is_finish := false;
  progress := new_progress_dots (1 + length titles) ("Welcome" :: titles);
  closed := false
|}.

(** The name [_navigate] gives to [set_visible_child_name]. *)
Definition child_name (page : nat) : string :=
  if (page =? 0)%nat then "welcome"
  else ("page_" ++ str_of_int (Z.of_nat page - 1))%string.

(** [_navigate], which ends with [_update_nav] *)
Definition _navigate (w : window) : window :=
  let is_first := (current_page w =? 0)%nat in
  let is_last := (Z.of_nat (current_page w) =? Z.of_nat (page_count w) - 1)%Z in
  {| current_page := current_page w;
     page_count := page_count w;
     visible_child := child_name (current_page w);
     stack_transition := stack_transition w;
     back_visible := negb is_first;
     next_is_finish := is_last;
     progress := set_page (current_page w) (progress w);
     closed := closed w |}.

Definition with_page (page : nat) (t : transition) (w : window) : window := {|
  current_page := page;
  page_count := page_count w;
  visible_child := visible_child w;
  stack_transition := t;
  back_visible := back_visible w;
  next_is_finish := next_is_finish w;
  progress := progress w;
  closed := closed w
|}.

Definition close (w : window) : window := {|
  current_page := current_page w;
  page_count := page_count w;
  visible_child := visible_child w;
  stack_transition := stack_transition w;
  back_visible := back_visible w;
  next_is_finish := next_is_finish w;
  progress := progress w;
  closed := true
|}.

(** [_on_back] *)
Definition _on_back (w : window) : window :=
  if (0 <? current_page w)%nat
  then _navigate (with_page (current_page w - 1) SLIDE_RIGHT w)
  else w.

(** [_on_next] *)
Definition _on_next (w : window) : window :=
  if (Z.of_nat (current_page w) <? Z.of_nat (page_count w) - 1)%Z
  then _navigate (with_page (current_page w + 1) SLIDE_LEFT w)
  else close w.

Inductive click : Type :=
| Back
| Next.

(** A click on a navigation button; a closed window gets none. *)
Definition nav_step (w : window) (c : click) : window :=
  if closed w then w
  else match c with
       | Back => _on_back w
       | Next => _on_next w
       end.

Definition nav_run (cs : list click) (w : window) : window :=
  fold_left nav_step cs w.

End Navigation.

(** ** Browser cards ([widgets.BrowserCard], [window.py]) *)

Module Browsers.
Import Py.
Local Open Scope list_scope.

(** An entry of the [variants] list of a browser of [pages.yaml]; a key
    may be missing. *)
Record variant : Type := {
  check : option string;
  desktop : option string
}.

(** [d.get(key, "")] *)
Definition get (field : option string) : string :=
  match field with Some s => s | None => "" end.

Section Filesystem.

(** [os.path.exists] *)
Variable path_exists : string -> bool.

(** [BrowserCard._check_installed] *)
Fixpoint _check_installed (variants : list variant) : bool :=
  match variants with
  | [] => false
  | v :: r =>
      let check_path := get (check v) in
      if negb (is_empty check_path) && path_exists check_path then true
      else _check_installed r
  end.

(** The inner loop of [refresh_browser_states]:
    [(is_installed, installed_desktop)], with [None] for Python's [None]. *)
Fixpoint detect (variants : list variant) : bool * option string :=
  match variants with
  | [] => (false, None)
  | v :: r =>
      let check_path := get (check v) in
      if negb (is_empty check_path) && path_exists check_path
      then (true, Some (get (desktop v)))
      else detect r
  end.

(** What [refresh_browser_states] gives to [card.set_selected], for the
    output [current_browser_default] of the [getBrowser] script. *)
Definition refreshed_selected (variants : list variant)
    (current_browser_default : string) : bool :=
  let '(is_installed, installed_desktop) := detect variants in
  is_installed &&
  match installed_desktop with
  | Some d => String.eqb d current_browser_default
  | None => false
  end.

(** [is_installed] of [_on_browser_select]: [True] sets the default,
    [False] starts the installation. *)
Definition select_is_installed (variants : list variant) : bool :=
  existsb (fun v => path_exists (get (check v))) variants.

(** The loop of [_set_default_browser]: [desktop_to_set]. *)
Fixpoint desktop_to_set (variants : list variant) : option string :=
  match variants with
  | [] => None
  | v :: r =>
      if path_exists (get (check v)) then Some (get (desktop v))
      else desktop_to_set r
  end.

(** The argument of the [setBrowser] call of [_set_default_browser], if it
    makes one. *)
Definition set_default_call (variants : list variant) : option string :=
  match desktop_to_set variants with
  | Some d => if negb (is_empty d) then Some d else None
  | None => None
  end.

(** The argument of the [setBrowser] call of [_post_install_set_default],
    if it makes one. *)
Fixpoint post_install_call (variants : list variant) : option string :=
  match variants with
  | [] => None
  | v :: r =>
      if path_exists (get (check v)) then
        let d := get (desktop v) in
        if negb (is_empty d) then Some d else None
      else post_install_call r
  end.

End Filesystem.

End Browsers.

(** ** Utility functions ([utils.py]) *)

Module Utils.
Import Py.
Local Open Scope string_scope.

(** [s.strip(chars)], with the characters of [chars] as the class [p] *)
Fixpoint lstrip_by (p : ascii -> bool) (s : string) : string :=
  match s with
  | "" => ""
  | String c r => if p c then lstrip_by p r else s
  end.

Fixpoint rstrip_by (p : ascii -> bool) (s : string) : string :=
  match s with
  | "" => ""
  | String c r =>
      match rstrip_by p r with
      | "" => if p c then "" else String c ""
      | r' => String c r'
      end
  end.

Definition strip_chars (chars s : string) : string :=
  rstrip_by (Re.one_of chars) (lstrip_by (Re.one_of chars) s).

(** [s.split(sep, 1)] for a one-character [sep]: the text before its first
    occurrence and the text after it; [None] when [s] has no [sep] and the
    result has one element only. *)
Fixpoint split_once (sep : ascii) (s : string) : option (string * string) :=
  match s with
  | "" => None
  | String c r =>
      if Ascii.eqb c sep then Some ("", r)
      else match split_once sep r with
           | Some (k, v) => Some (String c k, v)
           | None => None
           end
  end.

(** A [dict] of strings, in insertion order. *)
Definition dict : Type := list (string * string).

(** [d[k] = v] *)
Fixpoint dict_set (d : dict) (k v : string) : dict :=
  match d with
  | [] => [(k, v)]
  | (k', v') :: r =>
      if String.eqb k' k then (k', v) :: r else (k', v') :: dict_set r k v
  end%list.

(** [d.get(k, default)] *)
Definition dict_get (d : dict) (k default : string) : string :=
  InstallPanel.dict_get d k default.

(** The newline that ends a line read from the file. *)
Definition NL : string := String "010" "".

(** The characters the values are stripped of: the double and the single
    quote. *)
Definition QUOTES : string := String "034" (String "039" "").

(** The body of the loop of the fallback of [parse_os_release] for one
    decoded line of the file, over Python's [str.strip]; [None] is the
    [ValueError] of unpacking a split without a second part. *)
Definition parse_line (strip : string -> string) (line : string) (info : dict)
  : option dict :=
  if contains "=" line then
    match split_once "=" (strip line) with
    | Some (k, v) => Some (dict_set info k (strip_chars QUOTES v))
    | None => None
    end
  else Some info.

(** [os.environ.get("XDG_CURRENT_DESKTOP", "")] is [de]. *)
Definition get_desktop (de : string) : string :=
  if contains "KDE" de then "Plasma"
  else if contains "GNOME" de then "GNOME"
  else if negb (is_empty de) then de else "Unknown".

Section Filesystem.

(** [os.path.exists] *)
Variable path_exists : string -> bool.

(** The three paths [get_logo_path] tries for a logo name. *)
Definition logo_candidates (logo : string) : list string :=
  [ ("/usr/share/pixmaps/" ++ logo)%string;
    ("/usr/share/pixmaps/" ++ logo ++ ".png")%string;
    ("/usr/share/pixmaps/" ++ logo ++ ".svg")%string ]%list.

(** [get_logo_path(os_info)] *)
Definition get_logo_path (os_info : dict) : option string :=
  let logo := dict_get os_info "LOGO" "" in
  find path_exists (logo_candidates logo).

End Filesystem.

End Utils.

(** ** Notions the navigation properties are stated with *)

Module NavigationProps.
Import Py Navigation.
Local Open Scope list_scope.

(** What holds of a window between clicks. *)
Definition settled (titles : list string) (w : window) : Prop :=
  (current_page w < page_count w)%nat /\
  page_count w = (1 + length titles)%nat /\
  visible_child w = child_name (current_page w) /\
  back_visible w = negb (current_page w =? 0)%nat /\
  dots (progress w) =
    mark_dots 0 (current_page w)
      (init_dots ("Welcome" :: titles) 0 (1 + length titles)) /\
  (closed w = true -> current_page w = (page_count w - 1)%nat) /\
  (titles <> [] ->
   next_is_finish w = (current_page w =? page_count w - 1)%nat).

End NavigationProps.

(** ** Notions the properties are stated with *)

Module Props.
Import Py Splitter InstallPanel Window.
Local Open Scope list_scope.

(** *** The milestone table *)

Definition fractions : list Q := map snd MILESTONES.

Definition at_cutoff (m : string * Q) : bool := Qeq_bool (snd m) CANCEL_CUTOFF.

(** The shape of the table, for an order [ord] between the fractions of
    neighbouring entries. *)
Definition table_shape (ord : Q -> Q -> Prop) : Prop :=
  length MILESTONES = 13%nat /\
  Forall (fun f => 0 < f /\ f <= 1)%Q fractions /\
  Sorted ord fractions /\
  filter at_cutoff MILESTONES = [("processing package changes", 0.80%Q)].

Definition without (keyword : string) (ms : list (string * Q)) : list (string * Q) :=
  filter (fun m => negb (String.eqb (fst m) keyword)) ms.

(** *** The classifier, as a table of rules tried in order *)

Definition contains_any (words : list string) (l : string) : bool :=
  existsb (fun w => contains w l) words.

Definition tag_rules : list ((string -> bool) * string) :=
  [ (contains_any ["error"; "failed"], "error");
    (contains_any ["successfully"; "done"], "success");
    (contains_any ["warning"], "warning");
    (fun l => startswith_any l ["installing"; "removing"; "checking"; "resolving"; "::"],
     "info");
    (fun l => startswith_any l ["package"; "total"; "optional"], "dim") ].

Definition first_match (l : string) : option string :=
  option_map snd (find (fun rule => fst rule l) tag_rules).

(** *** Lines of a byte stream *)

Definition is_terminator (x : byte) : bool := Byte.eqb x LF || Byte.eqb x CR.

Definition terminator_free (l : list byte) : bool :=
  forallb (fun x => negb (is_terminator x)) l.

(** A terminated line: its bytes, and whether LF ended it (CR otherwise). *)
Definition segment : Type := list byte * bool.

Definition terminator (lf : bool) : byte := if lf then LF else CR.

(** The terminated lines of a stream, in order, and the fragment after
    the last terminator. *)
Fixpoint split_lines (s : list byte) : list segment * list byte :=
  match s with
  | [] => ([], [])
  | x :: r =>
      let '(segs, rem) := split_lines r in
      if Byte.eqb x LF then (([], true) :: segs, rem)
      else if Byte.eqb x CR then (([], false) :: segs, rem)
      else match segs with
           | [] => ([], x :: rem)
           | (l, lf) :: segs' => ((x :: l, lf) :: segs', rem)
           end
  end.

Definition all_free (segs : list segment) : Prop :=
  Forall (fun sg => terminator_free (fst sg) = true) segs.

(** [os.read] returns at least one byte before the end of the stream. *)
Definition nonempty (chunk : list byte) : Prop := chunk <> [].

(** The bytes of a segment, terminator reinserted. *)
Definition segment_bytes (sg : segment) : list byte :=
  fst sg ++ [terminator (snd sg)].

(** Empty lines and control lines. *)
Definition discarded (line : string) : bool :=
  is_empty line || startswith line "STATUS:".

(** What a kept line is dispatched as. *)
Definition routed (lf : bool) (line : string) : dispatch :=
  if lf then AppendLog line else ParseProgress line.

Definition kept (sg : segment) : bool := negb (discarded (decode (fst sg))).

Definition dispatch_of (sg : segment) : dispatch :=
  routed (snd sg) (decode (fst sg)).

(** *** Sessions *)

(** The fractions given to the progress bar never go down. *)
Definition nondecreasing (l : list Q) : Prop := StronglySorted Qle l.

Definition line_of (d : dispatch) : string :=
  match d with AppendLog line | ParseProgress line => line end.

(** A milestone qualifies for a case-folded line when its keyword occurs
    in the line and its fraction exceeds the last one reached. *)
Definition qualifies (lower : string) (p : panel) (m : string * Q) : bool :=
  contains (fst m) lower && ltb (last_milestone p) (snd m).

Definition no_milestone (line : string) (p : panel) : bool :=
  negb (existsb (qualifies (lower line) p) MILESTONES).

(** The value [_parse_progress] computes from a captured percentage. *)
Definition download_fraction (pct : Z) : Q :=
  (0.20 + (inject_Z pct / 100.0) * 0.35)%Q.

(** *** Steps of the estimator *)

(** What one line does to the panel: it reaches a milestone, or it leaves
    the milestone and the cancel button alone and gives the bar at most one
    download value. *)
Definition reached (kw : string) (f : Q) (p p' : panel) : Prop :=
  In (kw, f) MILESTONES /\ last_milestone p < f /\
  last_milestone p' = f /\
  set_fraction_calls p' = set_fraction_calls p ++ [f] /\
  cancel_sensitive p' = (if leb CANCEL_CUTOFF f then false else cancel_sensitive p).

Definition framed (p p' : panel) : Prop :=
  last_milestone p' = last_milestone p /\
  cancel_sensitive p' = cancel_sensitive p /\
  (set_fraction_calls p' = set_fraction_calls p \/
   in_download_phase p = true /\
   exists pct, (0 <= pct <= 999)%Z /\
     set_fraction_calls p' = set_fraction_calls p ++ [download_fraction pct]).



(** A line the panel may be given: not empty, and not a control line. *)
Definition presentable (d : dispatch) : Prop :=
  is_empty (line_of d) = false /\ startswith (line_of d) "STATUS:" = false.

End Props.

(** ** The install panel over Python's own text functions

    [str.lower], [str.strip], the search of [_RE_DOWNLOAD] and [int] work on
    Unicode text: they fold letters, trim blanks and read digits outside
    ASCII too; and the fraction of a download line is computed in floats.
    Here they are arguments, so that what is proved of the panel holds
    whatever these functions do.  The panel record, the tables and all that
    does not call them are those of [InstallPanel]. *)

Module UPanel.
Import Py InstallPanel Props.
Local Open Scope Q_scope.

Section Builtins.

(** [s.lower()] and [s.strip()] *)
Variable lower : string -> string.
Variable strip : string -> string.

(** [self._RE_DOWNLOAD.search(line)]: [group(1)] and [group(2)] of the
    match, if there is one *)
Variable search_download : string -> option (string * string).

(** [int(s)]; [None] is its [ValueError] *)
Variable to_int : string -> option Z.

(** The floats [0.20 + (pct / 100.0) * 0.35] and, of that float,
    [int(fraction * 100)] *)
Variable download_fraction : Z -> Q.
Variable download_percent : Z -> Z.

(** [self.stop_pulse(); self._progress.set_fraction(x);
    self._percent_label.set_label(f"{pct}%")], for a float [x] whose
    [int(x * 100)] is [pct] *)
Definition show_float (x : Q) (pct : Z) (p : panel) : panel := {|
  last_milestone := last_milestone p;
  cancelled := cancelled p;
  pulsing := false;
  set_fraction_calls := (set_fraction_calls p ++ [x])%list;
  percent_label := str_of_int pct ++ "%";
  title := title p;
  subtitle := subtitle p;
  accessible_label := accessible_label p;
  cancel_sensitive := cancel_sensitive p;
  cancel_tooltip := cancel_tooltip p;
  cancel_label := cancel_label p;
  cancel_callbacks := cancel_callbacks p;
  log := log p
|}.

(** [_get_line_tag] *)
Definition get_line_tag (line : string) : option string :=
  let folded := strip (lower line) in
  if contains "error" folded || contains "failed" folded then Some "error"
  else if contains "successfully" folded || contains "done" folded
  then Some "success"
  else if contains "warning" folded then Some "warning"
  else if startswith_any folded
            ["installing"; "removing"; "checking"; "resolving"; "::"]%list
  then Some "info"
  else if startswith_any folded ["package"; "total"; "optional"]%list
  then Some "dim"
  else None.

(** The download-phase branch of [_parse_progress] on a line that matched
    the pattern.  A [ValueError] of [int] leaves the handler before any
    widget is touched. *)
Definition download_progress (dl_match : string * string) (p : panel) : panel :=
  let speed := fst dl_match in
  match to_int (snd dl_match) with
  | None => p
  | Some pct =>
      let fraction := download_fraction pct in
      let p := show_float fraction (download_percent pct) p in
      set_subtitle
        ("Downloading… " ++ str_of_int pct ++ "% (" ++ speed ++ ")")%string p
  end.

(** The name shown for a downloading line. *)
Definition download_name (line : string) : string :=
  strip (replace (strip line) "downloading..." "").

Definition download_phase (line folded : string) (p : panel) : panel :=
  if contains "downloading" folded then
    let name := download_name line in
    if negb (is_empty name)
    then set_subtitle ("Downloading " ++ name ++ "…")%string p
    else p
  else
    match search_download line with
    | Some dl_match => download_progress dl_match p
    | None => p
    end.

(** [_parse_progress] *)
Definition _parse_progress (line : string) (p : panel) : panel :=
  let folded := lower line in
  let '(p, matched_milestone) := milestone_loop MILESTONES folded p in
  if negb matched_milestone && in_download_phase p
  then download_phase line folded p
  else p.

(** [parse_progress] *)
Definition parse_progress (line : string) (p : panel) : panel :=
  _parse_progress line p.

(** [append_log] *)
Definition append_log (line : string) (p : panel) : panel :=
  _parse_progress line (add_log line (get_line_tag line) p).

(** The panel on the UI thread, as [InstallPanel.ui_step]. *)
Definition ui_step (p : panel) (e : ui_event) : panel :=
  match e with
  | Queued (AppendLog line) => append_log line p
  | Queued (ParseProgress line) => parse_progress line p
  | CancelClicked => if cancel_sensitive p then _on_cancel p else p
  end.

Definition ui_run (es : list ui_event) (p : panel) : panel :=
  fold_left ui_step es p.

Definition session (browser_label : string) (es : list ui_event) : panel :=
  ui_run es (new_panel browser_label).

(** No milestone qualifies for the line. *)
Definition no_milestone (line : string) (p : panel) : bool :=
  negb (existsb (qualifies (lower line) p) MILESTONES).

(** The entries [append_log] writes for the events of a session. *)
Definition logged (es : list ui_event) : list (string * option string) :=
  flat_map
    (fun e =>
       match e with
       | Queued (AppendLog line) => [(line, get_line_tag line)]
       | _ => []
       end)%list es.

End Builtins.

(** The download fraction in exact arithmetic, which the float rounds. *)
Definition exact_fraction (pct : Z) : Q := 0.20 + (inject_Z pct / 100.0) * 0.35.

Definition exact_percent (pct : Z) : Z := int_of_float (exact_fraction pct * 100).

(** The search of [_RE_DOWNLOAD] on ASCII text, by the matcher of [Re]. *)
Definition ascii_search (line : string) : option (string * string) :=
  match Re.search RE_DOWNLOAD line with
  | Some m => Some (Re.group m 1, Re.group m 2)
  | None => None
  end.

End UPanel.

(** * Properties *)

Import Py Splitter InstallPanel Window Props.
Local Open Scope list_scope.

(** ** The line splitter *)

Lemma flush_unfold buf :
  flush_line_buffer buf =
  match next_line buf with
  | None => ([], buf)
  | Some (nl, l, rest) =>
      let r := flush_line_buffer rest in (emit nl (decode l) ++ fst r, snd r)
  end.
Proof.
  funelim (flush_line_buffer buf);
    match goal with e : next_line _ = _ |- _ => rewrite e end; reflexivity.
Qed.

Lemma byte_eqb_refl x : Byte.eqb x x = true.
Proof. now apply Byte.byte_dec_lb. Qed.

Lemma terminator_free_cons x l :
  terminator_free (x :: l) = true ->
  Byte.eqb x LF = false /\ Byte.eqb x CR = false /\ terminator_free l = true.
Proof.
  unfold terminator_free, is_terminator; cbn [forallb].
  intros H. apply andb_prop in H as [H1 H2].
  apply negb_true_iff, orb_false_iff in H1 as [? ?]. auto.
Qed.

Lemma bcontains_app c l r : bcontains c (l ++ r) = bcontains c l || bcontains c r.
Proof. unfold bcontains. apply existsb_app. Qed.

Lemma bcontains_free l :
  terminator_free l = true -> bcontains LF l = false /\ bcontains CR l = false.
Proof.
  induction l as [|x l IH]; [now split|].
  intros H. apply terminator_free_cons in H as (Hn & Hr & Hl).
  destruct (IH Hl) as [IHn IHr].
  unfold bcontains in *; cbn [existsb].
  rewrite IHn, IHr, !orb_false_r.
  split.
  - destruct (Byte.eqb LF x) eqn:E; [|reflexivity].
    apply Byte.byte_dec_bl in E; subst x. now rewrite byte_eqb_refl in Hn.
  - destruct (Byte.eqb CR x) eqn:E; [|reflexivity].
    apply Byte.byte_dec_bl in E; subst x. now rewrite byte_eqb_refl in Hr.
Qed.

(** [find] past a prefix that does not hold the byte. *)
Lemma bfind_app_free c l r :
  (forall x, In x l -> Byte.eqb x c = false) ->
  bfind c (l ++ r) =
  if (bfind c r <? 0)%Z then (-1)%Z else (Z.of_nat (length l) + bfind c r)%Z.
Proof.
  induction l as [|x l IH]; intros Hl.
  - cbn [app length]. pose proof (bfind_bounds c r).
    destruct (bfind c r <? 0)%Z eqn:E; lia.
  - cbn [app bfind length]. rewrite (Hl x (or_introl eq_refl)).
    rewrite IH by (intros y Hy; apply Hl; now right).
    pose proof (bfind_bounds c r).
    destruct (bfind c r <? 0)%Z eqn:E; [reflexivity|].
    destruct (Z.of_nat (length l) + bfind c r <? 0)%Z eqn:E'; lia.
Qed.

Lemma free_not_byte c l :
  terminator_free l = true -> is_terminator c = true ->
  forall x, In x l -> Byte.eqb x c = false.
Proof.
  unfold terminator_free. rewrite forallb_forall. intros Hl Hc x Hx.
  specialize (Hl x Hx). apply negb_true_iff in Hl.
  destruct (Byte.eqb x c) eqn:E; [|reflexivity].
  apply Byte.byte_dec_bl in E. congruence.
Qed.

Lemma next_line_free buf : terminator_free buf = true -> next_line buf = None.
Proof.
  intros H. unfold next_line.
  destruct (bcontains_free buf H) as [-> ->]. reflexivity.
Qed.

Lemma slices_at l x r :
  slice_to (l ++ x :: r) (Z.of_nat (length l)) = l /\
  slice_from (l ++ x :: r) (Z.of_nat (length l) + 1) = r.
Proof.
  unfold slice_to, slice_from. split.
  - rewrite Nat2Z.id, firstn_app, Nat.sub_diag, firstn_all. cbn. apply app_nil_r.
  - replace (Z.to_nat (Z.of_nat (length l) + 1)) with (length l + 1)%nat by lia.
    rewrite skipn_app, skipn_all2 by lia.
    replace (length l + 1 - length l)%nat with 1%nat by lia. reflexivity.
Qed.

Ltac zbool :=
  rewrite ?Z.geb_leb;
  repeat match goal with
    | |- context [(?a <=? ?b)%Z] => destruct (Z.leb_spec a b)
    | |- context [(?a <? ?b)%Z] => destruct (Z.ltb_spec a b)
    | H : context [(?a <? ?b)%Z] |- _ => destruct (Z.ltb_spec a b)
    end;
  cbn [andb orb]; try reflexivity; try lia.

Lemma next_line_at l lf rest :
  terminator_free l = true ->
  next_line (l ++ terminator lf :: rest) = Some (lf, l, rest).
Proof.
  intros Hl. unfold next_line.
  rewrite !bcontains_app.
  destruct (bcontains_free l Hl) as [-> ->]. cbn [orb].
  pose proof (bfind_bounds LF rest) as Bn. pose proof (bfind_bounds CR rest) as Br.
  destruct (slices_at l (terminator lf) rest) as [St Sf].
  destruct lf; cbn [terminator] in *.
  - replace (bcontains LF (LF :: rest)) with true by reflexivity. cbn [orb].
    rewrite (bfind_app_free LF l) by (apply free_not_byte; auto).
    rewrite (bfind_app_free CR l) by (apply free_not_byte; auto).
    replace (bfind LF (LF :: rest)) with 0%Z by reflexivity.
    replace (bfind CR (LF :: rest))
      with (if (bfind CR rest <? 0)%Z then (-1)%Z else (bfind CR rest + 1)%Z)
      by reflexivity.
    cbn [Z.ltb Z.compare]. rewrite Z.add_0_r, St, Sf.
    replace ((Z.of_nat (length l) >=? 0)%Z && _) with true; [reflexivity|].
    symmetry. zbool.
  - replace (bcontains CR (CR :: rest)) with true by reflexivity.
    rewrite orb_true_r.
    rewrite (bfind_app_free CR l) by (apply free_not_byte; auto).
    rewrite (bfind_app_free LF l) by (apply free_not_byte; auto).
    replace (bfind CR (CR :: rest)) with 0%Z by reflexivity.
    replace (bfind LF (CR :: rest))
      with (if (bfind LF rest <? 0)%Z then (-1)%Z else (bfind LF rest + 1)%Z)
      by reflexivity.
    cbn [Z.ltb Z.compare]. rewrite Z.add_0_r, St, Sf.
    replace ((_ >=? 0)%Z && _) with false.
    + replace (Z.of_nat (length l) >=? 0)%Z with true by (symmetry; zbool).
      reflexivity.
    + symmetry. zbool.
Qed.

Lemma flush_free l : terminator_free l = true -> flush_line_buffer l = ([], l).
Proof. intros H. now rewrite flush_unfold, next_line_free. Qed.

Lemma flush_at l lf rest :
  terminator_free l = true ->
  flush_line_buffer (l ++ terminator lf :: rest) =
  (emit lf (decode l) ++ fst (flush_line_buffer rest),
   snd (flush_line_buffer rest)).
Proof. intros H. now rewrite flush_unfold, next_line_at. Qed.

Lemma emit_kept lf line :
  emit lf line = if discarded line then [] else [routed lf line].
Proof. unfold emit, discarded, routed. now destruct (_ || _), lf. Qed.

(** *** The splitter and the lines of the stream *)

Lemma split_lines_sound s :
  let '(segs, rem) := split_lines s in
  s = concat (map segment_bytes segs) ++ rem /\
  all_free segs /\ terminator_free rem = true.
Proof.
  induction s as [|x r IH]; [split; [reflexivity | split; [constructor | reflexivity]]|].
  cbn [split_lines]. destruct (split_lines r) as [segs rem].
  destruct IH as (Hr & Hs & Hm).
  destruct (Byte.eqb x LF) eqn:En; [|destruct (Byte.eqb x CR) eqn:Ec].
  - apply Byte.byte_dec_bl in En; subst x.
    split; [rewrite Hr at 1; reflexivity | split; [constructor; auto | auto]].
  - apply Byte.byte_dec_bl in Ec; subst x.
    split; [rewrite Hr at 1; reflexivity | split; [constructor; auto | auto]].
  - assert (Hx : negb (is_terminator x) = true)
      by (unfold is_terminator; now rewrite En, Ec).
    destruct segs as [|[l lf] segs'].
    + split; [rewrite Hr at 1; reflexivity | split; [constructor |]].
      unfold terminator_free in *; cbn [forallb]. now rewrite Hx, Hm.
    + apply Forall_cons_iff in Hs as [Hl Hs'].
      split; [rewrite Hr at 1; reflexivity | split; [|auto]].
      constructor; [|auto].
      unfold terminator_free in *; cbn [fst forallb] in *. now rewrite Hx, Hl.
Qed.

Lemma flush_segments segs rem :
  all_free segs -> terminator_free rem = true ->
  flush_line_buffer (concat (map segment_bytes segs) ++ rem) =
  (map dispatch_of (filter kept segs), rem).
Proof.
  intros Hs Hm. induction Hs as [|[l lf] segs Hl Hs IH].
  - now apply flush_free.
  - replace (concat (map segment_bytes ((l, lf) :: segs)) ++ rem)
      with (l ++ terminator lf :: (concat (map segment_bytes segs) ++ rem))
      by (cbn; now rewrite <- !app_assoc).
    rewrite flush_at by exact Hl. rewrite IH, emit_kept.
    cbn [filter fst snd]. unfold kept at 2, dispatch_of at 2. cbn [fst snd].
    now destruct (discarded (decode l)).
Qed.

Lemma flush_split_lines s :
  flush_line_buffer s =
  (map dispatch_of (filter kept (fst (split_lines s))), snd (split_lines s)).
Proof.
  pose proof (split_lines_sound s) as H.
  destruct (split_lines s) as [segs rem]. destruct H as (Hs & Hf & Hm).
  rewrite Hs at 1. now apply flush_segments.
Qed.

Lemma split_lines_app s1 s2 :
  split_lines (s1 ++ s2) =
  let '(segs1, rem1) := split_lines s1 in
  let '(segs2, rem2) := split_lines (rem1 ++ s2) in
  (segs1 ++ segs2, rem2).
Proof.
  induction s1 as [|x r IH]; cbn [app split_lines].
  - now destruct (split_lines s2).
  - rewrite IH. destruct (split_lines r) as [segs1 rem1].
    destruct (Byte.eqb x LF) eqn:En; [|destruct (Byte.eqb x CR) eqn:Ec].
    + now destruct (split_lines (rem1 ++ s2)).
    + now destruct (split_lines (rem1 ++ s2)).
    + destruct segs1 as [|[l lf] segs1'].
      * cbn [app split_lines]. rewrite En, Ec.
        destruct (split_lines (rem1 ++ s2)) as [[|[? ?] ?] ?]; reflexivity.
      * now destruct (split_lines (rem1 ++ s2)).
Qed.

Lemma flush_app buf chunk :
  flush_line_buffer (buf ++ chunk) =
  let '(ds, rem) := flush_line_buffer buf in
  let '(ds', rem') := flush_line_buffer (rem ++ chunk) in
  (ds ++ ds', rem').
Proof.
  rewrite (flush_split_lines (buf ++ chunk)), (flush_split_lines buf).
  rewrite split_lines_app.
  destruct (split_lines buf) as [segs1 rem1]. cbn [fst snd].
  rewrite (flush_split_lines (rem1 ++ chunk)).
  destruct (split_lines (rem1 ++ chunk)) as [segs2 rem2].
  cbn [fst snd]. now rewrite filter_app, map_app.
Qed.

Lemma flush_remainder_free s : terminator_free (snd (flush_line_buffer s)) = true.
Proof.
  rewrite flush_split_lines. cbn [snd].
  pose proof (split_lines_sound s) as H.
  destruct (split_lines s) as [segs rem]. now destruct H as (_ & _ & H).
Qed.

Lemma feed_flush chunks buf :
  terminator_free buf = true ->
  feed chunks buf = flush_line_buffer (buf ++ concat chunks).
Proof.
  revert buf. induction chunks as [|c cs IH]; intros buf Hb; cbn [feed concat].
  - rewrite app_nil_r. now rewrite flush_free.
  - rewrite app_assoc, (flush_app (buf ++ c)).
    pose proof (flush_remainder_free (buf ++ c)) as Hr.
    destruct (flush_line_buffer (buf ++ c)) as [ds buf']. cbn [snd] in Hr.
    now rewrite (IH buf' Hr).
Qed.

Lemma read_loop_feed chunks buf notified seen :
  Forall nonempty chunks ->
  read_loop (map (fun c => Readable c false) chunks ++ [Readable [] seen])
    buf notified =
  (fst (feed chunks buf) ++ flush_at_eof (snd (feed chunks buf)),
   Some EndOfStream).
Proof.
  intros H. revert buf notified.
  induction H as [|c cs Hc Hcs IH]; intros buf notified.
  - reflexivity.
  - cbn [map app read_loop feed].
    destruct c as [|x c]; [now elim Hc|].
    destruct (flush_line_buffer (buf ++ x :: c)) as [ds buf'].
    rewrite IH. destruct (feed cs buf') as [ds' buf''].
    cbn [fst snd]. now rewrite app_assoc.
Qed.

(** C6: a line that is neither empty nor a control line is dispatched as a
    log line when LF ends it and as a progress-update line when CR ends
    it; empty lines and lines beginning with "STATUS:" are dropped without
    a dispatch; a fragment without terminator is returned as the
    remainder; with the four buffers of the specification as instances. *)
Theorem flush_line_buffer_lines :
  (forall l rest, terminator_free l = true -> discarded (decode l) = false ->
     flush_line_buffer (l ++ LF :: rest) =
       (AppendLog (decode l) :: fst (flush_line_buffer rest),
        snd (flush_line_buffer rest)) /\
     flush_line_buffer (l ++ CR :: rest) =
       (ParseProgress (decode l) :: fst (flush_line_buffer rest),
        snd (flush_line_buffer rest))) /\
  (forall rest,
     flush_line_buffer (LF :: rest) = flush_line_buffer rest /\
     flush_line_buffer (CR :: rest) = flush_line_buffer rest) /\
  (forall l rest, terminator_free l = true ->
     flush_line_buffer (b "STATUS:" ++ l ++ LF :: rest) = flush_line_buffer rest /\
     flush_line_buffer (b "STATUS:" ++ l ++ CR :: rest) = flush_line_buffer rest) /\
  (forall l, terminator_free l = true -> flush_line_buffer l = ([], l)) /\
  flush_line_buffer (b "hello world" ++ [LF]) = ([AppendLog "hello world"], []) /\
  flush_line_buffer (b "progress 50%" ++ [CR]) = ([ParseProgress "progress 50%"], []) /\
  flush_line_buffer (b "line1" ++ [LF] ++ b "line2" ++ [LF] ++ b "partial") =
    ([AppendLog "line1"; AppendLog "line2"], b "partial") /\
  flush_line_buffer (b "STATUS:started" ++ [LF]) = ([], []).
Proof.
  assert (Hat : forall l lf rest, terminator_free l = true ->
            flush_line_buffer (l ++ terminator lf :: rest) =
            ((if discarded (decode l) then [] else [routed lf (decode l)])
               ++ fst (flush_line_buffer rest), snd (flush_line_buffer rest))).
  { intros l lf rest Hl. now rewrite flush_at, emit_kept. }
  assert (Hdrop : forall l lf rest, terminator_free l = true ->
            discarded (decode l) = true ->
            flush_line_buffer (l ++ terminator lf :: rest) = flush_line_buffer rest).
  { intros l lf rest Hl Hd. rewrite Hat, Hd by exact Hl.
    now destruct (flush_line_buffer rest). }
  split; [|split; [|split; [|split]]].
  - intros l rest Hl Hd.
    split; [rewrite (Hat l true) | rewrite (Hat l false)]; auto;
      now rewrite Hd.
  - intros rest. split; [apply (Hdrop [] true) | apply (Hdrop [] false)];
      reflexivity.
  - intros l rest Hl.
    assert (Hf : terminator_free (b "STATUS:" ++ l) = true)
      by (unfold terminator_free; rewrite forallb_app; now apply andb_true_iff).
    rewrite !app_assoc.
    split; [apply (Hdrop _ true) | apply (Hdrop _ false)]; auto;
      cbn; now destruct (decode l).
  - apply flush_free.
  - repeat split; reflexivity.
Qed.

Lemma flush_line_buffer_lines_witness :
  flush_line_buffer (b "installing foo" ++ LF :: b "12%" ++ [CR]) =
  (AppendLog "installing foo" :: fst (flush_line_buffer (b "12%" ++ [CR])),
   snd (flush_line_buffer (b "12%" ++ [CR]))).
Proof.
  apply (proj1 flush_line_buffer_lines (b "installing foo") (b "12%" ++ [CR]));
    reflexivity.
Defined.

(** C5: however a byte stream is cut into chunks, feeding the chunks one
    after the other queues the same calls, in the same order and with the
    same routing, and leaves the same remainder, as flushing the whole
    stream at once, and so does the read loop up to the end of the stream
    when every chunk holds a byte.  The stream is its terminated lines,
    terminators reinserted, followed by the remainder; the calls queued are
    the kept lines in order; a line is not kept exactly when it is empty
    or begins with "STATUS:". *)
Theorem chunking_invariance (chunks : list (list byte)) :
  let stream := concat chunks in
  let segs := fst (split_lines stream) in
  let rem := snd (split_lines stream) in
  feed chunks [] = flush_line_buffer stream /\
  (forall seen, Forall nonempty chunks ->
     read_process_output
       (map (fun c => Readable c false) chunks ++ [Readable [] seen]) =
     (fst (flush_line_buffer stream) ++ flush_at_eof (snd (flush_line_buffer stream)),
      Some EndOfStream)) /\
  stream = concat (map segment_bytes segs) ++ rem /\
  all_free segs /\
  terminator_free rem = true /\
  flush_line_buffer stream = (map dispatch_of (filter kept segs), rem) /\
  (forall sg, kept sg = false <->
     decode (fst sg) = "" \/ startswith (decode (fst sg)) "STATUS:" = true).
Proof.
  intros stream segs rem.
  assert (Hfeed : feed chunks [] = flush_line_buffer stream)
    by (now rewrite feed_flush).
  pose proof (split_lines_sound stream) as Hs.
  pose proof (flush_split_lines stream) as Hflush.
  fold segs rem in Hflush.
  subst segs rem. destruct (split_lines stream) as [segs rem].
  destruct Hs as (Hs & Hf & Hm). cbn [fst snd] in *.
  split; [exact Hfeed|].
  split; [|split; [exact Hs|split; [exact Hf|split; [exact Hm|split; [exact Hflush|]]]]].
  - intros seen Hne. unfold read_process_output.
    now rewrite read_loop_feed, Hfeed.
  - intros sg. unfold kept, discarded.
    rewrite negb_false_iff, orb_true_iff.
    destruct (decode (fst sg)); cbn [is_empty]; split;
      intros [H|H]; auto; discriminate.
Qed.

Lemma chunking_invariance_witness :
  read_process_output
    (map (fun c => Readable c false)
       [b "li"; b "ne1" ++ [LF] ++ b "prog 3"; b "0%" ++ [CR] ++ b "tail"]
     ++ [Readable [] false]) =
  ([AppendLog "line1"; ParseProgress "prog 30%"; AppendLog "tail"],
   Some EndOfStream).
Proof.
  apply (proj1 (proj2 (chunking_invariance
           [b "li"; b "ne1" ++ [LF] ++ b "prog 3"; b "0%" ++ [CR] ++ b "tail"]))).
  repeat constructor; discriminate.
Defined.

(** ** The milestone table *)

Ltac q_order := unfold Qlt, Qle; cbn; lia.

Ltac sorted_q :=
  repeat first
    [ apply Sorted_nil | apply HdRel_nil | apply Sorted_cons
    | apply HdRel_cons; q_order ].

(** C2, as stated, fails: the table is not strictly ascending, since
    "installing" and "upgrading" carry the same fraction 0.85. *)
Lemma milestones_not_strictly_ascending : ~ table_shape Qlt.
Proof.
  intros (_ & _ & Hs & _).
  unfold fractions, MILESTONES in Hs; cbn [map snd] in Hs.
  do 10 (apply Sorted_inv in Hs as [Hs _]).
  apply Sorted_inv in Hs as [_ Hh].
  inversion Hh as [|? ? Hlt]; subst.
  revert Hlt. q_order.
Qed.

(** C2, amended: the table has exactly 13 entries, every fraction lies in
    (0,1], the fractions never decrease in table order and strictly
    increase once the entry "upgrading" (which repeats the 0.85 of
    "installing") is left out, and the cutoff 0.80 is the fraction of
    exactly one entry, "processing package changes". *)
Theorem milestones_table_shape :
  table_shape Qle /\
  Sorted Qlt (map snd (without "upgrading" MILESTONES)) /\
  In ("installing", 0.85%Q) MILESTONES /\
  In ("upgrading", 0.85%Q) MILESTONES.
Proof.
  split; [unfold table_shape; split; [|split; [|split]]|split; [|split]].
  - reflexivity.
  - unfold fractions, MILESTONES; cbn [map snd].
    repeat (constructor; [split; q_order|]). constructor.
  - unfold fractions, MILESTONES; cbn [map snd].
    sorted_q.
  - reflexivity.
  - cbn.
    sorted_q.
  - cbn. tauto.
  - cbn. tauto.
Qed.

(** ** The outcome of an attempt *)

(** C4: with the cancellation flag never reset between its two reads, the
    attempt succeeds exactly when the child exits with code 0 and the flag
    is not set; a set flag gives Cancelled whatever became of the child,
    a 0 exit included, and so does a cancel click on a panel that has not
    reached any milestone; without the flag, a nonzero exit, a spawn
    failure, uncaptured output, a read error and the wait timeout all
    give Failed. *)
Theorem install_outcome (c : child) (flag_after_wait flag : bool)
    (Hmono : flag_after_wait = true -> flag = true) :
  (perform_browser_install c flag_after_wait flag = Succeeded
     <-> c = Exited 0 /\ flag = false) /\
  (flag = true -> perform_browser_install c flag_after_wait flag = Cancelled) /\
  (flag = false -> c <> Exited 0 ->
     perform_browser_install c flag_after_wait flag = Failed) /\
  (forall label,
     let p := ui_step (new_panel label) CancelClicked in
     last_milestone p = 0.0%Q /\
     perform_browser_install c (cancelled p) (cancelled p) = Cancelled).
Proof.
  unfold perform_browser_install.
  repeat split.
  - destruct flag; [discriminate|].
    destruct c as [| | | |rc]; try discriminate.
    destruct (rc =? 0)%Z eqn:E; [|discriminate].
    apply Z.eqb_eq in E. now subst.
  - destruct flag; [discriminate|].
    destruct c as [| | | |rc]; try discriminate.
    destruct (rc =? 0)%Z eqn:E; [|discriminate].
    reflexivity.
  - intros [-> ->].
    destruct flag_after_wait; [specialize (Hmono eq_refl); discriminate|].
    reflexivity.
  - intros ->. reflexivity.
  - intros -> Hc.
    destruct flag_after_wait; [specialize (Hmono eq_refl); discriminate|].
    destruct c as [| | | |rc]; try reflexivity.
    destruct (rc =? 0)%Z eqn:E; [|reflexivity].
    apply Z.eqb_eq in E. now subst.
Qed.

Lemma install_outcome_witness :
  perform_browser_install (Exited 0) false true = Cancelled /\
  perform_browser_install (Exited 1) false false = Failed.
Proof.
  split.
  - apply (install_outcome (Exited 0) false true); [discriminate | reflexivity].
  - apply (install_outcome (Exited 1) false false);
      [discriminate | reflexivity | discriminate].
Defined.

(** ** The pattern matcher *)

Lemma or_else_some {A} (x y : option A) r :
  Re.or_else x y = Some r -> x = Some r \/ y = Some r.
Proof. destruct x; cbn; auto. Qed.

Lemma rep_inv p greedy s : forall lo hi cs k res,
  Re.rep p greedy lo hi s cs k = Some res ->
  exists t s', s = (t ++ s')%string /\ Re.all_chars p t = true /\
    (lo <= String.length t)%nat /\
    (forall h, hi = Some h -> (String.length t <= h)%nat) /\
    k s' cs = Some res.
Proof.
  induction s as [|c r IH]; intros lo hi cs k res H.
  - cbn [Re.rep] in H.
    assert (lo = 0%nat /\ k "" cs = Some res) as [-> Hk].
    { destruct greedy; apply or_else_some in H as [H|H]; try discriminate;
        destruct lo; try discriminate; auto. }
    exists "", "". repeat split; auto. intros; cbn; lia.
  - cbn [Re.rep] in H.
    assert (Hcase :
      (lo = 0%nat /\ k (String c r) cs = Some res) \/
      (p c = true /\ Re.may_repeat hi = true /\
       Re.rep p greedy (Nat.pred lo) (option_map Nat.pred hi) r cs k = Some res)).
    { destruct (p c && Re.may_repeat hi) eqn:E.
      - apply andb_prop in E as [E1 E2].
        destruct greedy; apply or_else_some in H as [H|H]; auto;
          destruct lo; try discriminate; auto.
      - destruct greedy; apply or_else_some in H as [H|H]; try discriminate;
          destruct lo; try discriminate; auto. }
    destruct Hcase as [[-> Hk]|(Hp & Hm & Hr)].
    + exists "", (String c r). repeat split; auto. intros; cbn; lia.
    + apply IH in Hr as (t & s' & -> & Ht & Hlo & Hhi & Hk).
      exists (String c t), s'. cbn [String.append Re.all_chars String.length].
      rewrite Hp, Ht. repeat split; auto; [lia|].
      intros h ->. cbn in Hm. destruct h; [discriminate|].
      specialize (Hhi h eq_refl). lia.
Qed.

Lemma run_cont r : forall s cs k res,
  Re.run r s cs k = Some res -> exists s' cs', k s' cs' = Some res.
Proof.
  induction r as [l|p|r1 IH1 r2 IH2|r1 IH1|p lo hi g|i r1 IH1];
    intros s cs k res H; cbn [Re.run] in H.
  - destruct (Re.lit l s); [eauto|discriminate].
  - destruct s as [|c s']; [discriminate|].
    destruct (p c); [eauto|discriminate].
  - apply IH1 in H as (s1 & cs1 & H). eauto.
  - apply or_else_some in H as [H|H]; eauto.
  - apply rep_inv in H as (t & s' & _ & _ & _ & _ & H). eauto.
  - apply IH1 in H as (s1 & cs1 & H). eauto.
Qed.

Lemma run_cat r1 r2 s cs k :
  Re.run (Re.Cat r1 r2) s cs k = Re.run r1 s cs (fun s' cs' => Re.run r2 s' cs' k).
Proof. reflexivity. Qed.

Lemma run_rep p lo hi g s cs k :
  Re.run (Re.Rep p lo hi g) s cs k = Re.rep p g lo hi s cs k.
Proof. reflexivity. Qed.

Lemma run_grp i r s cs k :
  Re.run (Re.Grp i r) s cs k =
  Re.run r s cs (fun s' cs' => k s' ((i, Re.consumed s s') :: cs')).
Proof. reflexivity. Qed.

Lemma length_app t s' :
  String.length (t ++ s')%string = (String.length t + String.length s')%nat.
Proof. induction t as [|c t IH]; cbn; [reflexivity|now rewrite IH]. Qed.

Lemma consumed_prefix t s' : Re.consumed (t ++ s')%string s' = t.
Proof.
  unfold Re.consumed.
  replace (String.length (t ++ s')%string - String.length s')%nat with (String.length t)
    by (rewrite length_app; lia).
  induction t as [|c t IH]; cbn; [now destruct s'|now rewrite IH].
Qed.

Lemma int_digits_bound t : forall acc,
  Re.all_chars is_digit t = true -> (0 <= acc)%Z ->
  exists v, int_digits acc t = Some v /\
    (acc * 10 ^ Z.of_nat (String.length t) <= v
       < (acc + 1) * 10 ^ Z.of_nat (String.length t))%Z.
Proof.
  induction t as [|c t IH]; intros acc Ht Hacc.
  - exists acc. cbn. split; [reflexivity|lia].
  - cbn [Re.all_chars] in Ht. apply andb_prop in Ht as [Hc Ht].
    cbn [int_digits String.length]. rewrite Hc.
    assert (Hd : (0 <= digit_value c <= 9)%Z).
    { unfold is_digit in Hc. unfold digit_value.
      apply andb_prop in Hc as [H1 H2].
      apply N.leb_le in H1, H2. lia. }
    destruct (IH (10 * acc + digit_value c)%Z Ht) as (v & -> & Hv); [lia|].
    exists v. split; [reflexivity|].
    rewrite Nat2Z.inj_succ, Z.pow_succ_r by lia.
    nia.
Qed.

(** What the pattern captures as its second group is a decimal number below
    1000, so [int] accepts it. *)
Lemma download_match_percent line m :
  Re.search RE_DOWNLOAD line = Some m ->
  exists pct, int_of_str (Re.group m 2) = Some pct /\ (0 <= pct <= 999)%Z.
Proof.
  assert (Hhere : forall s, Re.match_here RE_DOWNLOAD s = Some m ->
    exists pct, int_of_str (Re.group m 2) = Some pct /\ (0 <= pct <= 999)%Z).
  { intros s H. unfold Re.match_here, RE_DOWNLOAD in H.
    rewrite run_cat in H. apply run_cont in H as (s1 & cs1 & H).
    rewrite run_cat, run_rep in H.
    apply rep_inv in H as (t0 & s2 & _ & _ & _ & _ & H).
    rewrite run_cat, run_grp, run_rep in H.
    apply rep_inv in H as (t & s3 & -> & Ht & Hlo & Hhi & H).
    cbn [Re.run] in H.
    destruct (Re.lit "%" s3); [|discriminate].
    injection H as <-. cbn [Re.group Nat.eqb].
    rewrite consumed_prefix.
    specialize (Hhi 3%nat eq_refl).
    destruct (int_digits_bound t 0 Ht) as (v & Hv & Hb); [lia|].
    exists v. split.
    - unfold int_of_str. destruct t; [cbn in Hlo; lia|exact Hv].
    - assert (10 ^ Z.of_nat (String.length t) <= 1000)%Z.
      { change 1000%Z with (10 ^ 3)%Z. apply Z.pow_le_mono_r; lia. }
      lia. }
  induction line as [|c r IH]; cbn [Re.search]; intros H;
    apply or_else_some in H as [H|H]; eauto; discriminate.
Qed.

(** ** The estimator, step by step *)

Local Open Scope Q_scope.

Lemma ltb_lt x y : ltb x y = true <-> x < y.
Proof.
  unfold ltb. rewrite negb_true_iff. split; intros H.
  - apply Qnot_le_lt. intros Hle. apply Qle_bool_iff in Hle. congruence.
  - destruct (Qle_bool y x) eqn:E; [|reflexivity].
    apply Qle_bool_iff in E. exfalso. now apply (Qlt_not_le x y).
Qed.

Lemma leb_le x y : leb x y = true <-> x <= y.
Proof. apply Qle_bool_iff. Qed.

Lemma milestone_loop_find ms lower p :
  milestone_loop ms lower p =
  match find (qualifies lower p) ms with
  | Some (keyword, fraction) => (reach_milestone keyword fraction p, true)
  | None => (p, false)
  end.
Proof.
  induction ms as [|[kw f] ms IH]; [reflexivity|].
  cbn [milestone_loop find]. unfold qualifies at 1. cbn [fst snd].
  now destruct (contains kw lower && ltb (last_milestone p) f).
Qed.

(** The three ways through [_parse_progress]. *)
Lemma parse_progress_cases line p :
  _parse_progress line p =
  match find (qualifies (lower line) p) MILESTONES with
  | Some (keyword, fraction) => reach_milestone keyword fraction p
  | None =>
      if in_download_phase p then download_phase line (lower line) p else p
  end.
Proof.
  unfold _parse_progress. rewrite milestone_loop_find.
  destruct (find _ MILESTONES) as [[kw f]|]; reflexivity.
Qed.

Lemma find_none_no_milestone line p :
  find (qualifies (lower line) p) MILESTONES = None <-> no_milestone line p = true.
Proof.
  unfold no_milestone. rewrite negb_true_iff. split; intros H.
  - destruct (existsb _ MILESTONES) eqn:E; [|reflexivity].
    apply existsb_exists in E as (m & Hin & Hq).
    now rewrite (find_none _ _ H m Hin) in Hq.
  - destruct (find _ MILESTONES) as [m|] eqn:E; [|reflexivity].
    apply find_some in E as [Hin Hq].
    assert (existsb (qualifies (lower line) p) MILESTONES = true)
      by (apply existsb_exists; eauto).
    congruence.
Qed.

(** What reaching a milestone changes. *)
Lemma reach_milestone_fields kw f p :
  let p' := reach_milestone kw f p in
  last_milestone p' = f /\
  set_fraction_calls p' = set_fraction_calls p ++ [f] /\
  cancel_sensitive p' = (if leb CANCEL_CUTOFF f then false else cancel_sensitive p) /\
  cancelled p' = cancelled p /\
  cancel_callbacks p' = cancel_callbacks p.
Proof.
  unfold reach_milestone.
  destruct (negb (is_empty (dict_get PHASE_LABELS kw ""))),
    (leb CANCEL_CUTOFF f); cbn; auto.
Qed.

(** What the download phase changes: the subtitle, and the bar when the
    line carries a percentage. *)
Lemma download_phase_fields line lower p :
  let p' := download_phase line lower p in
  last_milestone p' = last_milestone p /\
  cancel_sensitive p' = cancel_sensitive p /\
  cancelled p' = cancelled p /\
  cancel_callbacks p' = cancel_callbacks p /\
  (set_fraction_calls p' = set_fraction_calls p \/
   exists pct, (0 <= pct <= 999)%Z /\ contains "downloading" lower = false /\
     set_fraction_calls p' = set_fraction_calls p ++ [download_fraction pct]).
Proof.
  unfold download_phase.
  destruct (contains "downloading" lower).
  - destruct (negb (is_empty _)); cbn; auto 6.
  - destruct (Re.search RE_DOWNLOAD line) as [m|] eqn:E; [|cbn; auto 6].
    destruct (download_match_percent line m E) as (pct & Hpct & Hb).
    unfold download_progress. rewrite Hpct. cbn. repeat split; auto.
    right. exists pct. auto.
Qed.

Lemma add_log_fields line tag p :
  let p' := add_log line tag p in
  last_milestone p' = last_milestone p /\
  cancel_sensitive p' = cancel_sensitive p /\
  cancelled p' = cancelled p /\
  cancel_callbacks p' = cancel_callbacks p /\
  set_fraction_calls p' = set_fraction_calls p /\
  subtitle p' = subtitle p.
Proof. cbn. auto 6. Qed.

Lemma download_fraction_ge pct : (0 <= pct)%Z -> 0.20 <= download_fraction pct.
Proof.
  intros H. unfold download_fraction.
  rewrite <- (Qplus_0_r 0.20) at 1.
  apply Qplus_le_r. apply Qmult_le_0_compat; [|q_order].
  apply Qmult_le_0_compat; [|q_order].
  unfold Qle; cbn; lia.
Qed.

Lemma download_fraction_value pct :
  download_fraction pct == 0.20 + (pct # 100) * 0.35.
Proof.
  unfold download_fraction.
  apply Qplus_inj_l, Qmult_inj_r; [discriminate|].
  unfold Qeq, Qdiv, Qmult, Qinv, inject_Z. cbn [Qnum Qden]. lia.
Qed.

(** In the download phase the last milestone is one of the first four. *)
Lemma download_phase_milestone x :
  In x (0.0 :: fractions) -> leb 0.05 x && ltb x 0.55 = true -> x <= 0.20.
Proof.
  intros Hin Hph. unfold fractions, MILESTONES in Hin. cbn [map snd In] in Hin.
  repeat (destruct Hin as [<-|Hin]; [first [q_order | discriminate Hph]|]).
  contradiction.
Qed.

Lemma parse_progress_step line p :
  let p' := _parse_progress line p in
  cancelled p' = cancelled p /\ cancel_callbacks p' = cancel_callbacks p /\
  ((exists kw f, find (qualifies (lower line) p) MILESTONES = Some (kw, f) /\
      reached kw f p p') \/
   (no_milestone line p = true /\ framed p p')).
Proof.
  cbn zeta. rewrite parse_progress_cases.
  destruct (find (qualifies (lower line) p) MILESTONES) as [[kw f]|] eqn:E.
  - destruct (reach_milestone_fields kw f p) as (H1 & H2 & H3 & H4 & H5).
    split; [exact H4|split; [exact H5|left]].
    exists kw, f. split; [reflexivity|].
    apply find_some in E as [Hin Hq].
    unfold qualifies in Hq. cbn [fst snd] in Hq.
    apply andb_prop in Hq as [_ Hq]. apply ltb_lt in Hq.
    repeat split; assumption.
  - apply find_none_no_milestone in E.
    destruct (in_download_phase p) eqn:Eph.
    + destruct (download_phase_fields line (lower line) p)
        as (H1 & H2 & H3 & H4 & H5).
      split; [exact H3|split; [exact H4|right]].
      split; [exact E|]. split; [exact H1|split; [exact H2|]].
      destruct H5 as [H5|(pct & Hb & _ & H5)]; [now left|right].
      split; [exact Eph|eauto].
    + split; [reflexivity|split; [reflexivity|right]].
      split; [exact E|]. split; [reflexivity|split; [reflexivity|now left]].
Qed.

Lemma append_log_step line p :
  let p' := append_log line p in
  cancelled p' = cancelled p /\ cancel_callbacks p' = cancel_callbacks p /\
  ((exists kw f, find (qualifies (lower line) p) MILESTONES = Some (kw, f) /\
      reached kw f p p') \/
   (no_milestone line p = true /\ framed p p')).
Proof.
  cbn zeta. unfold append_log.
  exact (parse_progress_step line (add_log line (get_line_tag line) p)).
Qed.

Lemma queued_step d p :
  let p' := ui_step p (Queued d) in
  cancelled p' = cancelled p /\ cancel_callbacks p' = cancel_callbacks p /\
  ((exists kw f,
      find (qualifies (lower (line_of d)) p) MILESTONES = Some (kw, f) /\
      reached kw f p p') \/
   (no_milestone (line_of d) p = true /\ framed p p')).
Proof.
  destruct d as [line|line]; cbn [ui_step line_of].
  - apply append_log_step.
  - apply parse_progress_step.
Qed.


Lemma ui_run_invariant (I : panel -> Prop) :
  (forall p e, I p -> I (ui_step p e)) ->
  forall es p, I p -> I (ui_run es p).
Proof.
  intros Hstep es. induction es as [|e es IH]; intros p Hp; [exact Hp|].
  cbn [ui_run fold_left]. apply IH, Hstep, Hp.
Qed.

Lemma ui_step_last_le p e : last_milestone p <= last_milestone (ui_step p e).
Proof.
  destruct e as [d|].
  - destruct (queued_step d p) as (_ & _ & [(kw & f & _ & Hr)|(_ & Hf)]).
    + destruct Hr as (_ & Hlt & -> & _). now apply Qlt_le_weak.
    + destruct Hf as (-> & _). apply Qle_refl.
  - cbn [ui_step]. destruct (cancel_sensitive p); apply Qle_refl.
Qed.

(** ** Extra properties of the estimator *)

(** X1: whatever reaches the panel, the last-reached milestone fraction
    never goes down. *)
Theorem last_milestone_never_decreases (p : panel) (es : list ui_event) :
  last_milestone p <= last_milestone (ui_run es p).
Proof.
  revert p. induction es as [|e es IH]; intros p; [apply Qle_refl|].
  cbn [ui_run fold_left].
  eapply Qle_trans; [apply ui_step_last_le|apply IH].
Qed.

Lemma step_milestone_in_table p e :
  In (last_milestone p) (0.0 :: fractions) ->
  In (last_milestone (ui_step p e)) (0.0 :: fractions).
Proof.
  intros Hp. destruct e as [d|].
  - destruct (queued_step d p) as (_ & _ & [(kw & f & _ & Hr)|(_ & Hf)]).
    + destruct Hr as (Hin & _ & -> & _). right.
      unfold fractions. now apply (in_map snd) in Hin.
    + destruct Hf as (-> & _). exact Hp.
  - cbn [ui_step]. now destruct (cancel_sensitive p).
Qed.

Lemma session_milestone_in_table label es :
  In (last_milestone (session label es)) (0.0 :: fractions).
Proof.
  unfold session.
  apply (ui_run_invariant (fun p => In (last_milestone p) (0.0 :: fractions))).
  - intros p e. apply step_milestone_in_table.
  - now left.
Qed.

(** X2: in a session the last-reached milestone fraction is 0 or one of the
    fractions of the table; it lies in the download phase exactly when it is
    one of 0.05, 0.10, 0.15 and 0.20. *)
Theorem session_milestone_values (label : string) (es : list ui_event) :
  let p := session label es in
  In (last_milestone p) (0.0 :: fractions) /\
  (in_download_phase p = true <->
   In (last_milestone p) [0.05; 0.10; 0.15; 0.20]).
Proof.
  cbn zeta. pose proof (session_milestone_in_table label es) as H.
  split; [exact H|].
  unfold in_download_phase.
  set (x := last_milestone (session label es)) in *. clearbody x.
  unfold fractions, MILESTONES in H. cbn [map snd In] in H.
  split.
  - intros Hph.
    repeat (destruct H as [<-|H];
            [first [discriminate Hph | cbn; tauto]|]).
    contradiction.
  - intros Hin. cbn [In] in Hin.
    repeat (destruct Hin as [<-|Hin]; [reflexivity|]). contradiction.
Qed.

(** X3: a step of a session gives the bar at most one new value, and that
    value is not below the milestone fraction the panel holds after the
    step. *)
Theorem surfaced_not_below_milestone (label : string) (es : list ui_event)
    (e : ui_event) :
  let p := session label es in
  let p' := ui_step p e in
  exists added,
    set_fraction_calls p' = set_fraction_calls p ++ added /\
    (length added <= 1)%nat /\
    Forall (fun x => last_milestone p' <= x) added.
Proof.
  cbn zeta. set (p := session label es).
  destruct e as [d|].
  - destruct (queued_step d p) as (_ & _ & [(kw & f & _ & Hr)|(_ & Hf)]).
    + destruct Hr as (_ & _ & Hl & Hc & _).
      exists [f]. rewrite Hl. repeat split; auto.
      constructor; [apply Qle_refl|constructor].
    + destruct Hf as (Hl & _ & [Hc|(Hph & pct & Hb & Hc)]).
      * exists []. rewrite app_nil_r. repeat split; auto.
      * exists [download_fraction pct]. rewrite Hl. repeat split; auto.
        constructor; [|constructor].
        apply Qle_trans with 0.20; [|apply download_fraction_ge; lia].
        apply download_phase_milestone; [|exact Hph].
        apply session_milestone_in_table.
  - exists []. rewrite app_nil_r. cbn [ui_step].
    destruct (cancel_sensitive p); repeat split; auto.
Qed.










(** ** The cancel button *)

Lemma ui_step_cancel_fields p e :
  let p' := ui_step p e in
  (cancelled p = true -> cancelled p' = true) /\
  ((cancelled p = true -> cancel_sensitive p = false) ->
   (cancelled p' = true -> cancel_sensitive p' = false)) /\
  (cancel_callbacks p = (if cancelled p then 1 else 0)%nat ->
   (cancelled p = true -> cancel_sensitive p = false) ->
   cancel_callbacks p' = (if cancelled p' then 1 else 0)%nat).
Proof.
  cbn zeta. destruct e as [d|].
  - destruct (queued_step d p) as (H1 & H2 & Hcase). rewrite H1, H2.
    split; [auto|split; [|auto]].
    intros Hinv Hc. specialize (Hinv Hc).
    destruct Hcase as [(kw & f & _ & Hr)|(_ & Hf)].
    + destruct Hr as (_ & _ & _ & _ & ->). rewrite Hinv.
      now destruct (leb CANCEL_CUTOFF f).
    + destruct Hf as (_ & -> & _). exact Hinv.
  - cbn [ui_step]. destruct (cancel_sensitive p) eqn:Es.
    + cbn. split; [auto|split; [auto|]].
      intros Hcb Hinv. destruct (cancelled p); [now specialize (Hinv eq_refl)|].
      now rewrite Hcb.
    + rewrite Es. auto.
Qed.

(** X10: the cancellation flag latches: once set it stays set, whatever
    lines and clicks follow. *)
Theorem cancelled_flag_latches (p : panel) (es : list ui_event) :
  cancelled p = true -> cancelled (ui_run es p) = true.
Proof.
  revert p. induction es as [|e es IH]; intros p Hp; [exact Hp|].
  cbn [ui_run fold_left]. apply IH.
  now apply (ui_step_cancel_fields p e).
Qed.

Lemma cancelled_flag_latches_witness :
  cancelled
    (ui_run [Queued (AppendLog "installing firefox..."); CancelClicked]
       (ui_step (new_panel "Firefox") CancelClicked)) = true.
Proof.
  apply (cancelled_flag_latches (ui_step (new_panel "Firefox") CancelClicked)).
  reflexivity.
Defined.

(** X11: in a session the cancel callback runs at most once, and exactly
    when the cancellation flag is set; a set flag leaves the button
    insensitive, so a second click does nothing. *)
Theorem cancel_callback_at_most_once (label : string) (es : list ui_event) :
  let p := session label es in
  cancel_callbacks p = (if cancelled p then 1 else 0)%nat /\
  (cancelled p = true ->
   cancel_sensitive p = false /\ ui_step p CancelClicked = p).
Proof.
  cbn zeta.
  assert (H : (cancelled (session label es) = true ->
               cancel_sensitive (session label es) = false) /\
              cancel_callbacks (session label es) =
              (if cancelled (session label es) then 1 else 0)%nat).
  { unfold session.
    apply (ui_run_invariant
             (fun p => (cancelled p = true -> cancel_sensitive p = false) /\
                       cancel_callbacks p = (if cancelled p then 1 else 0)%nat)).
    - intros p e [H1 H2].
      destruct (ui_step_cancel_fields p e) as (_ & H3 & H4). auto.
    - split; [discriminate|reflexivity]. }
  destruct H as [H1 H2]. split; [exact H2|].
  intros Hc. specialize (H1 Hc). split; [exact H1|].
  cbn [ui_step]. now rewrite H1.
Qed.

Lemma cancel_callback_at_most_once_witness :
  cancel_sensitive (session "Firefox" [CancelClicked]) = false /\
  ui_step (session "Firefox" [CancelClicked]) CancelClicked
    = session "Firefox" [CancelClicked].
Proof.
  apply (proj2 (cancel_callback_at_most_once "Firefox" [CancelClicked])).
  reflexivity.
Defined.

(** X15: set_progress clamps: the value it gives to the bar lies in [0,1],
    is the requested fraction when that lies in [0,1], 0 below and 1
    above; it stops the pulse, replaces the subtitle only by a non-empty
    text, and leaves the milestone state and the cancel button alone. *)
Theorem set_progress_clamps (fraction : Q) (phase_text : string) (p : panel) :
  let p' := set_progress fraction phase_text p in
  exists c,
    set_fraction_calls p' = set_fraction_calls p ++ [c] /\
    0 <= c <= 1 /\
    (0 <= fraction <= 1 -> c == fraction) /\
    (fraction < 0 -> c == 0) /\
    (1 < fraction -> c == 1) /\
    pulsing p' = false /\
    subtitle p' = (if is_empty phase_text then subtitle p else phase_text) /\
    last_milestone p' = last_milestone p /\
    cancel_sensitive p' = cancel_sensitive p.
Proof.
  cbn zeta. unfold set_progress.
  set (c := fmax 0.0 (fmin 1.0 fraction)).
  exists c.
  assert (Hc : 0 <= c <= 1 /\ (0 <= fraction <= 1 -> c == fraction) /\
               (fraction < 0 -> c == 0) /\ (1 < fraction -> c == 1)).
  { subst c. unfold fmax, fmin, ltb.
    destruct (Qle_bool 1.0 fraction) eqn:E1; cbn [negb].
    - apply Qle_bool_iff in E1.
      change (Qle_bool 1.0 0.0) with false. cbn [negb].
      destruct fraction as [n d]. unfold Qle, Qlt, Qeq in *.
      cbn [Qnum Qden] in *. repeat split; intros; lia.
    - assert (H1 : ~ 1.0 <= fraction)
        by (intros H; apply Qle_bool_iff in H; congruence).
      destruct (Qle_bool fraction 0.0) eqn:E0; cbn [negb].
      + apply Qle_bool_iff in E0.
        destruct fraction as [n d]. unfold Qle, Qlt, Qeq in *.
        cbn [Qnum Qden] in *. repeat split; intros; lia.
      + assert (H0 : ~ fraction <= 0.0)
          by (intros H; apply Qle_bool_iff in H; congruence).
        destruct fraction as [n d]. unfold Qle, Qlt, Qeq in *.
        cbn [Qnum Qden] in *. repeat split; intros; lia. }
  destruct Hc as (H1 & H2 & H3 & H4).
  destruct (is_empty phase_text); cbn; repeat split; auto; apply H1.
Qed.

Lemma set_progress_clamps_witness :
  exists c,
    set_fraction_calls (set_progress 1.5 "" (new_panel "Firefox")) = [] ++ [c] /\
    c == 1.
Proof.
  destruct (set_progress_clamps 1.5 "" (new_panel "Firefox"))
    as (c & Hcalls & _ & _ & _ & Hhigh & _).
  exists c. split; [exact Hcalls|]. apply Hhigh. unfold Qlt; cbn; lia.
Defined.

(** ** Extra properties of the read loop *)

(** X16: a stall episode queues the "Still working…" line once: the first
    timeout of a run of timeouts queues it, the following ones queue
    nothing, and a chunk of output re-arms it; the buffered fragment is
    not touched by a timeout. *)
Theorem stall_heartbeat_once (n : nat) (rest : list poll) (buf : list byte) :
  read_loop (repeat Stalled (S n) ++ rest) buf false =
    (AppendLog "Still working…" :: fst (read_loop rest buf true),
     snd (read_loop rest buf true)) /\
  read_loop (repeat Stalled n ++ rest) buf true = read_loop rest buf true /\
  (forall x c notified,
     read_loop (Readable (x :: c) false :: Stalled :: rest) buf notified =
     (fst (flush_line_buffer (buf ++ x :: c))
        ++ AppendLog "Still working…"
        :: fst (read_loop rest (snd (flush_line_buffer (buf ++ x :: c))) true),
      snd (read_loop rest (snd (flush_line_buffer (buf ++ x :: c))) true))).
Proof.
  assert (Hquiet : forall k, read_loop (repeat Stalled k ++ rest) buf true
                             = read_loop rest buf true).
  { induction k as [|k IH]; [reflexivity|].
    cbn [repeat app read_loop]. exact IH. }
  split; [|split; [apply Hquiet|]].
  - cbn [repeat app read_loop]. now rewrite Hquiet.
  - intros x c notified. cbn [read_loop].
    now destruct (flush_line_buffer (buf ++ x :: c)).
Qed.

Lemma decode_nonempty x r : is_empty (decode (x :: r)) = false.
Proof.
  cbn [decode]. unfold REPLACEMENT, chars.
  cbn [string_of_list_byte String.append].
  repeat match goal with
         | |- context [if ?c then _ else _] => destruct c
         | |- context [match ?l with [] => _ | _ :: _ => _ end] => destruct l
         end; reflexivity.
Qed.

Lemma flush_presentable buf : Forall presentable (fst (flush_line_buffer buf)).
Proof.
  rewrite flush_split_lines. cbn [fst].
  apply Forall_forall. intros d Hd.
  apply in_map_iff in Hd as (sg & <- & Hsg).
  apply filter_In in Hsg as [_ Hk].
  unfold kept, discarded in Hk. apply negb_true_iff, orb_false_iff in Hk.
  unfold presentable, dispatch_of, routed. now destruct (snd sg).
Qed.

Lemma read_loop_presentable polls : forall buf notified,
  Forall presentable (fst (read_loop polls buf notified)).
Proof.
  induction polls as [|[|chunk seen] polls IH]; intros buf notified;
    cbn [read_loop].
  - constructor.
  - destruct notified; cbn [fst]; [apply IH|].
    constructor; [now split|apply IH].
  - destruct chunk as [|x c].
    + cbn [fst]. unfold flush_at_eof. destruct buf as [|y buf]; [constructor|].
      destruct (startswith (decode (y :: buf)) "STATUS:") eqn:E; constructor;
        [|constructor].
      split; [apply decode_nonempty|exact E].
    + destruct seen; [constructor|].
      pose proof (flush_presentable (buf ++ x :: c)) as Hf.
      destruct (flush_line_buffer (buf ++ x :: c)) as [ds buf'].
      cbn [fst] in *. apply Forall_app. split; [exact Hf|apply IH].
Qed.

(** X17: whatever the child writes and however the reads fall, no empty
    line and no line beginning with "STATUS:" is ever queued for the
    panel, neither from a terminated line nor from the last fragment at the
    end of the stream. *)
Theorem control_lines_never_dispatched (polls : list poll) (d : dispatch) :
  In d (fst (read_process_output polls)) ->
  line_of d <> "" /\ startswith (line_of d) "STATUS:" = false.
Proof.
  intros Hd. pose proof (read_loop_presentable polls [] false) as H.
  rewrite Forall_forall in H. destruct (H d Hd) as [H1 H2].
  split; [|exact H2]. intros E. now rewrite E in H1.
Qed.

Lemma control_lines_never_dispatched_witness :
  "ok" <> "" /\ startswith "ok" "STATUS:" = false.
Proof.
  apply (control_lines_never_dispatched
           [Readable (b "STATUS:run" ++ [LF] ++ b "ok" ++ [LF]) false]
           (AppendLog "ok")).
  cbn. now left.
Defined.

(** ** Extra properties of the classifier *)

Lemma lower_char_idem c : lower_char (lower_char c) = lower_char c.
Proof. destruct c as [[] [] [] [] [] [] [] []]; reflexivity. Qed.

Lemma is_space_lower_char c : is_space (lower_char c) = is_space c.
Proof. destruct c as [[] [] [] [] [] [] [] []]; reflexivity. Qed.

Lemma lower_idem s : lower (lower s) = lower s.
Proof.
  induction s as [|c r IH]; [reflexivity|].
  cbn [lower]. now rewrite lower_char_idem, IH.
Qed.

Lemma lower_lstrip s : lower (lstrip s) = lstrip (lower s).
Proof.
  induction s as [|c r IH]; [reflexivity|].
  cbn [lower lstrip]. rewrite is_space_lower_char.
  now destruct (is_space c).
Qed.

Lemma lower_rstrip s : lower (rstrip s) = rstrip (lower s).
Proof.
  induction s as [|c r IH]; [reflexivity|].
  cbn [lower rstrip]. rewrite <- IH, is_space_lower_char.
  destruct (rstrip r) as [|a t]; cbn [lower]; [now destruct (is_space c)|].
  reflexivity.
Qed.

Lemma rstrip_idem s : rstrip (rstrip s) = rstrip s.
Proof.
  induction s as [|c r IH]; [reflexivity|].
  cbn [rstrip]. destruct (rstrip r) as [|a t] eqn:E.
  - destruct (is_space c) eqn:Ec; [reflexivity|].
    cbn [rstrip]. now rewrite Ec.
  - replace (rstrip (String c (String a t)))
      with (match rstrip (String a t) with
            | "" => if is_space c then "" else String c ""
            | String _ _ as r' => String c r'
            end) by reflexivity.
    now rewrite IH.
Qed.

Lemma lstrip_rstrip_lstrip s : lstrip (rstrip (lstrip s)) = rstrip (lstrip s).
Proof.
  induction s as [|c r IH]; [reflexivity|].
  cbn [lstrip]. destruct (is_space c) eqn:Ec; [exact IH|].
  cbn [rstrip]. destruct (rstrip r); rewrite ?Ec; cbn [lstrip]; now rewrite Ec.
Qed.

Lemma strip_idem s : strip (strip s) = strip s.
Proof. unfold strip. now rewrite lstrip_rstrip_lstrip, rstrip_idem. Qed.

Lemma lower_strip s : lower (strip s) = strip (lower s).
Proof. unfold strip. now rewrite lower_rstrip, lower_lstrip. Qed.

Lemma lower_char_ascii c :
  Text.is_ascii c = true -> Text.is_ascii (lower_char c) = true.
Proof. destruct c as [[] [] [] [] [] [] [] []]; intros H; exact H || reflexivity. Qed.

Lemma lower_ascii_only s :
  Text.ascii_only s = true -> Text.ascii_only (Py.lower s) = true.
Proof.
  unfold Text.ascii_only. induction s as [|c r IH]; [reflexivity|].
  cbn [Re.all_chars Py.lower]. intros H. apply andb_prop in H as [Hc Hr].
  now rewrite (lower_char_ascii c Hc), IH.
Qed.

Lemma lstrip_ascii_only s :
  Text.ascii_only s = true -> Text.ascii_only (lstrip s) = true.
Proof.
  unfold Text.ascii_only. induction s as [|c r IH]; [reflexivity|].
  cbn [lstrip]. destruct (is_space c); [|auto].
  cbn [Re.all_chars]. intros H. apply andb_prop in H as [_ Hr]. auto.
Qed.

Lemma rstrip_ascii_only s :
  Text.ascii_only s = true -> Text.ascii_only (rstrip s) = true.
Proof.
  unfold Text.ascii_only. induction s as [|c r IH]; [reflexivity|].
  cbn [Re.all_chars rstrip]. intros H. apply andb_prop in H as [Hc Hr].
  specialize (IH Hr). destruct (rstrip r) as [|c' r'].
  - destruct (is_space c); [reflexivity|]. cbn [Re.all_chars]. now rewrite Hc.
  - cbn [Re.all_chars] in *. now rewrite Hc.
Qed.

Lemma strip_ascii_only s :
  Text.ascii_only s = true -> Text.ascii_only (Py.strip s) = true.
Proof. intros H. unfold Py.strip. now apply rstrip_ascii_only, lstrip_ascii_only. Qed.

(** ** The panel over Python's own text functions

    The properties of this section are those of [UPanel]: they hold for
    every [str.lower], [str.strip], pattern search, [int] and float
    arithmetic.  Where a statement needs to know what folding and trimming
    do, it says so: on ASCII text they are [Py.lower] and [Py.strip]. *)

Section OverBuiltins.

Variable lower : string -> string.
Variable strip : string -> string.
Variable search_download : string -> option (string * string).
Variable to_int : string -> option Z.
Variable download_fraction : Z -> Q.
Variable download_percent : Z -> Z.

Local Abbreviation u_parse :=
  (UPanel._parse_progress lower strip search_download to_int
     download_fraction download_percent).
Local Abbreviation u_step :=
  (UPanel.ui_step lower strip search_download to_int
     download_fraction download_percent).
Local Abbreviation u_run :=
  (UPanel.ui_run lower strip search_download to_int
     download_fraction download_percent).
Local Abbreviation u_session :=
  (UPanel.session lower strip search_download to_int
     download_fraction download_percent).
Local Abbreviation u_tag := (UPanel.get_line_tag lower strip).

Lemma u_parse_cases line p :
  u_parse line p =
  match find (qualifies (lower line) p) MILESTONES with
  | Some (keyword, fraction) => reach_milestone keyword fraction p
  | None =>
      if in_download_phase p
      then UPanel.download_phase strip search_download to_int
             download_fraction download_percent line (lower line) p
      else p
  end.
Proof.
  unfold UPanel._parse_progress. rewrite milestone_loop_find.
  destruct (find _ MILESTONES) as [[kw f]|]; reflexivity.
Qed.

Lemma u_no_milestone line p :
  find (qualifies (lower line) p) MILESTONES = None <->
  UPanel.no_milestone lower line p = true.
Proof.
  unfold UPanel.no_milestone. rewrite negb_true_iff. split; intros H.
  - destruct (existsb _ MILESTONES) eqn:E; [|reflexivity].
    apply existsb_exists in E as (m & Hin & Hq).
    now rewrite (find_none _ _ H m Hin) in Hq.
  - destruct (find _ MILESTONES) as [m|] eqn:E; [|reflexivity].
    apply find_some in E as [Hin Hq].
    assert (existsb (qualifies (lower line) p) MILESTONES = true)
      by (apply existsb_exists; eauto).
    congruence.
Qed.

(** What the download phase leaves alone. *)
Lemma u_download_phase_keeps line folded p :
  let p' := UPanel.download_phase strip search_download to_int
             download_fraction download_percent line folded p in
  last_milestone p' = last_milestone p /\
  cancel_sensitive p' = cancel_sensitive p /\
  cancelled p' = cancelled p /\
  cancel_callbacks p' = cancel_callbacks p /\
  log p' = log p.
Proof.
  unfold UPanel.download_phase.
  destruct (contains "downloading" folded).
  - destruct (negb (is_empty _)); cbn; auto 6.
  - destruct (search_download line) as [m|]; [|cbn; auto 6].
    unfold UPanel.download_progress.
    destruct (to_int (snd m)); cbn; auto 6.
Qed.

Lemma reach_milestone_log kw f p : log (reach_milestone kw f p) = log p.
Proof.
  unfold reach_milestone.
  now destruct (negb (is_empty (dict_get PHASE_LABELS kw ""))),
    (leb CANCEL_CUTOFF f).
Qed.

(** One line: it reaches a milestone, or it leaves milestone and button
    alone. *)
Lemma u_parse_step line p :
  let p' := u_parse line p in
  cancelled p' = cancelled p /\ cancel_callbacks p' = cancel_callbacks p /\
  log p' = log p /\
  ((exists kw f, find (qualifies (lower line) p) MILESTONES = Some (kw, f) /\
      reached kw f p p') \/
   (UPanel.no_milestone lower line p = true /\
    last_milestone p' = last_milestone p /\
    cancel_sensitive p' = cancel_sensitive p)).
Proof.
  cbn zeta. rewrite u_parse_cases.
  destruct (find (qualifies (lower line) p) MILESTONES) as [[kw f]|] eqn:E.
  - destruct (reach_milestone_fields kw f p) as (H1 & H2 & H3 & H4 & H5).
    split; [exact H4|split; [exact H5|split; [apply reach_milestone_log|left]]].
    exists kw, f. split; [reflexivity|].
    apply find_some in E as [Hin Hq].
    unfold qualifies in Hq. cbn [fst snd] in Hq.
    apply andb_prop in Hq as [_ Hq]. apply ltb_lt in Hq.
    repeat split; assumption.
  - apply u_no_milestone in E.
    destruct (in_download_phase p).
    + destruct (u_download_phase_keeps line (lower line) p)
        as (H1 & H2 & H3 & H4 & H5).
      split; [exact H3|split; [exact H4|split; [exact H5|right]]]. auto.
    + split; [reflexivity|split; [reflexivity|split; [reflexivity|right]]]. auto.
Qed.

Lemma u_queued_step d p :
  let p' := u_step p (Queued d) in
  cancelled p' = cancelled p /\ cancel_callbacks p' = cancel_callbacks p /\
  ((exists kw f,
      find (qualifies (lower (line_of d)) p) MILESTONES = Some (kw, f) /\
      reached kw f p p') \/
   (UPanel.no_milestone lower (line_of d) p = true /\
    last_milestone p' = last_milestone p /\
    cancel_sensitive p' = cancel_sensitive p)).
Proof.
  destruct d as [line|line]; cbn [UPanel.ui_step line_of].
  - unfold UPanel.append_log.
    destruct (u_parse_step line (add_log line (u_tag line) p))
      as (H1 & H2 & _ & H3). auto.
  - unfold UPanel.parse_progress.
    destruct (u_parse_step line p) as (H1 & H2 & _ & H3). auto.
Qed.

Lemma u_step_last_le p e : last_milestone p <= last_milestone (u_step p e).
Proof.
  destruct e as [d|].
  - destruct (u_queued_step d p) as (_ & _ & [(kw & f & _ & Hr)|(_ & Hl & _)]).
    + destruct Hr as (_ & Hlt & -> & _). now apply Qlt_le_weak.
    + rewrite Hl. apply Qle_refl.
  - cbn [UPanel.ui_step]. destruct (cancel_sensitive p); apply Qle_refl.
Qed.

Lemma u_run_last_le es : forall p, last_milestone p <= last_milestone (u_run es p).
Proof.
  induction es as [|e es IH]; intros p; [apply Qle_refl|].
  cbn [UPanel.ui_run fold_left].
  eapply Qle_trans; [apply u_step_last_le|apply IH].
Qed.

(** X6: whatever str.lower, str.strip, the pattern search and int do, a
    line in which no milestone qualifies leaves the last-reached milestone
    fraction, the cancel button, the cancellation flag and the count of
    cancel callbacks as they were, whether it arrives as a log line or as a
    progress line. *)
Theorem unmatched_line_frame (p : panel) (d : dispatch)
    (Hno : UPanel.no_milestone lower (line_of d) p = true) :
  let p' := u_step p (Queued d) in
  last_milestone p' = last_milestone p /\
  cancel_sensitive p' = cancel_sensitive p /\
  cancelled p' = cancelled p /\
  cancel_callbacks p' = cancel_callbacks p.
Proof.
  cbn zeta.
  destruct (u_queued_step d p) as (H1 & H2 & [(kw & f & Hfind & _)|(_ & H3 & H4)]).
  - apply u_no_milestone in Hno. congruence.
  - auto.
Qed.

(** X7: a line changes the last-reached milestone fraction, or takes the
    sensitivity of the cancel button away, only by reaching a milestone of
    the table whose keyword occurs in the line as str.lower folds it and
    whose fraction exceeds the last one; the button is lost only to a
    fraction at or above the cutoff. *)
Theorem milestone_is_the_only_cause (p : panel) (d : dispatch) :
  let p' := u_step p (Queued d) in
  (last_milestone p' <> last_milestone p \/
   (cancel_sensitive p = true /\ cancel_sensitive p' = false)) ->
  exists kw f,
    In (kw, f) MILESTONES /\
    contains kw (lower (line_of d)) = true /\
    last_milestone p < f /\ last_milestone p' = f /\
    (cancel_sensitive p' = false -> cancel_sensitive p = true ->
     CANCEL_CUTOFF <= f).
Proof.
  cbn zeta. intros Hch.
  destruct (u_queued_step d p) as (_ & _ & [(kw & f & Hfind & Hr)|(_ & Hl & Hc)]).
  - destruct Hr as (Hin & Hlt & Hl & _ & Hc).
    exists kw, f. apply find_some in Hfind as [_ Hq].
    unfold qualifies in Hq. cbn [fst snd] in Hq.
    apply andb_prop in Hq as [Hk _].
    repeat split; auto.
    intros H1 H2. rewrite Hc in H1.
    destruct (leb CANCEL_CUTOFF f) eqn:E; [now apply leb_le|congruence].
  - destruct Hch as [Hch|[H1 H2]]; [contradiction|congruence].
Qed.

(** X9: in the download phase, a line in which no milestone qualifies and
    whose folded form contains "downloading" gives no value to the bar and
    leaves milestone and pulse alone; the subtitle shows the name left
    after trimming, removing every "downloading..." and trimming again,
    unless that name is empty, in which case the subtitle stays. *)
Theorem downloading_name_line (p : panel) (line : string) :
  let p' := UPanel.parse_progress lower strip search_download to_int
               download_fraction download_percent line p in
  UPanel.no_milestone lower line p = true ->
  in_download_phase p = true ->
  contains "downloading" (lower line) = true ->
  set_fraction_calls p' = set_fraction_calls p /\
  last_milestone p' = last_milestone p /\
  pulsing p' = pulsing p /\
  subtitle p' =
    (if is_empty (UPanel.download_name strip line) then subtitle p
     else ("Downloading " ++ UPanel.download_name strip line ++ "…")%string).
Proof.
  cbn zeta. intros Hno Hph Hdl.
  unfold UPanel.parse_progress. rewrite u_parse_cases.
  apply u_no_milestone in Hno. rewrite Hno, Hph.
  unfold UPanel.download_phase. rewrite Hdl.
  destruct (is_empty (UPanel.download_name strip line)); cbn; auto.
Qed.

(** X12: the log of a session holds exactly the lines that arrived through
    append_log, in order, each with the tag _get_line_tag gives it;
    progress lines and clicks write nothing to it. *)
Theorem session_log (label : string) (es : list ui_event) :
  log (u_session label es) = UPanel.logged lower strip es.
Proof.
  unfold UPanel.session.
  assert (H : forall es p,
            log (u_run es p) = log p ++ UPanel.logged lower strip es).
  { clear es. induction es as [|e es IH]; intros p.
    - cbn. now rewrite app_nil_r.
    - cbn [UPanel.ui_run fold_left].
      change (fold_left u_step es (u_step p e)) with (u_run es (u_step p e)).
      rewrite IH.
      unfold UPanel.logged; cbn [flat_map]. rewrite app_assoc. f_equal.
      destruct e as [[line|line]|]; cbn [UPanel.ui_step].
      + unfold UPanel.append_log.
        destruct (u_parse_step line (add_log line (u_tag line) p))
          as (_ & _ & -> & _). reflexivity.
      + unfold UPanel.parse_progress.
        destruct (u_parse_step line p) as (_ & _ & -> & _).
        now rewrite app_nil_r.
      + rewrite app_nil_r. now destruct (cancel_sensitive p). }
  now rewrite H.
Qed.

(** X14: milestones are reached in strictly increasing order of fraction:
    after a line has reached a milestone, any milestone reached later, by
    whatever line and after whatever lines and clicks, has a strictly
    larger fraction.  So no keyword fires twice, and of "installing" and
    "upgrading", which share 0.85, only one ever fires. *)
Theorem milestones_strictly_increase (p : panel) (d d' : dispatch)
    (es : list ui_event) (kw kw' : string) (f f' : Q) :
  find (qualifies (lower (line_of d)) p) MILESTONES = Some (kw, f) ->
  find (qualifies (lower (line_of d')) (u_run es (u_step p (Queued d))))
       MILESTONES = Some (kw', f') ->
  last_milestone (u_step p (Queued d)) = f /\
  f < f' /\
  last_milestone (u_step (u_run es (u_step p (Queued d))) (Queued d')) = f'.
Proof.
  intros H1 H2.
  assert (Hl : last_milestone (u_step p (Queued d)) = f).
  { destruct (u_queued_step d p) as (_ & _ & [(k & g & Hfind & Hr)|(Hno & _)]).
    - rewrite H1 in Hfind. injection Hfind as <- <-.
      now destruct Hr as (_ & _ & ? & _).
    - apply u_no_milestone in Hno. congruence. }
  set (q := u_run es (u_step p (Queued d))) in *.
  split; [exact Hl|split].
  - apply find_some in H2 as [_ Hq].
    unfold qualifies in Hq. cbn [fst snd] in Hq.
    apply andb_prop in Hq as [_ Hq]. apply ltb_lt in Hq.
    eapply Qle_lt_trans; [|exact Hq].
    rewrite <- Hl. apply u_run_last_le.
  - destruct (u_queued_step d' q) as (_ & _ & [(k & g & Hfind & Hr)|(Hno & _)]).
    + rewrite H2 in Hfind. injection Hfind as <- <-.
      now destruct Hr as (_ & _ & ? & _).
    + apply u_no_milestone in Hno. congruence.
Qed.


(** A line gives the bar no value and leaves the pulse alone, or gives it
    one value and stops the pulse. *)
Lemma u_parse_bar_and_pulse line p :
  let p' := u_parse line p in
  (set_fraction_calls p' = set_fraction_calls p /\ pulsing p' = pulsing p) \/
  (exists x, set_fraction_calls p' = set_fraction_calls p ++ [x] /\
     pulsing p' = false).
Proof.
  cbn zeta. rewrite u_parse_cases.
  destruct (find (qualifies (lower line) p) MILESTONES) as [[kw f]|].
  - right. exists f. unfold reach_milestone.
    destruct (negb (is_empty (dict_get PHASE_LABELS kw ""))),
      (leb CANCEL_CUTOFF f); cbn; auto.
  - destruct (in_download_phase p); [|auto].
    unfold UPanel.download_phase.
    destruct (contains "downloading" (lower line)).
    + destruct (negb (is_empty _)); cbn; auto.
    + destruct (search_download line) as [m|]; [|auto].
      unfold UPanel.download_progress.
      destruct (to_int (snd m)) as [pct|]; [|auto].
      right. exists (download_fraction pct). cbn. auto.
Qed.

(** X13: the pulse and the bar go together: a line, whether it arrives as
    a log line or as a progress line, either gives the bar no value and
    leaves the pulse as it was, or gives the bar exactly one value and
    stops the pulse; a cancel click does the former. *)
Theorem pulse_stops_with_bar_value (p : panel) (e : ui_event) :
  let p' := u_step p e in
  ((set_fraction_calls p' = set_fraction_calls p /\ pulsing p' = pulsing p) \/
   (exists x, set_fraction_calls p' = set_fraction_calls p ++ [x] /\
      pulsing p' = false)) /\
  (e = CancelClicked ->
   set_fraction_calls p' = set_fraction_calls p /\ pulsing p' = pulsing p).
Proof.
  cbn zeta. split.
  - destruct e as [[line|line]|]; cbn [UPanel.ui_step].
    + apply (u_parse_bar_and_pulse line
               (add_log line (UPanel.get_line_tag lower strip line) p)).
    + apply u_parse_bar_and_pulse.
    + left. now destruct (cancel_sensitive p).
  - intros ->. cbn [UPanel.ui_step]. now destruct (cancel_sensitive p).
Qed.

(** *** The classifier *)

Hypothesis lower_ascii : Text.agrees_on_ascii lower Py.lower.
Hypothesis strip_ascii : Text.agrees_on_ascii strip Py.strip.

(** On an ASCII line the classifier is the one of [InstallPanel]. *)
Lemma u_tag_ascii line :
  Text.ascii_only line = true -> u_tag line = get_line_tag line.
Proof.
  intros Ha. unfold UPanel.get_line_tag, get_line_tag.
  rewrite (lower_ascii line Ha).
  now rewrite (strip_ascii _ (lower_ascii_only line Ha)).
Qed.

(** C7: on every decoded line the classifier answers as the rules do,
    tried in order on the line as str.lower folds and str.strip trims it:
    "error"/"failed" anywhere give error, else "successfully"/"done"
    anywhere give success, else "warning" anywhere gives warning, else one
    of the prefixes installing, removing, checking, resolving, "::" gives
    info, else one of the prefixes package, total, optional gives dim, else
    there is no tag; with the seven lines of the specification as
    instances. *)
Theorem get_line_tag_first_match :
  (forall line, u_tag line = first_match (strip (lower line))) /\
  u_tag "error: could not open file" = Some "error" /\
  u_tag "transaction failed" = Some "error" /\
  u_tag "Done." = Some "success" /\
  u_tag "warning: dependency cycle" = Some "warning" /\
  u_tag "installing firefox..." = Some "info" /\
  u_tag "Packages (3): " = Some "dim" /\
  u_tag "" = None.
Proof.
  split; [|repeat split; now rewrite u_tag_ascii].
  intros line.
  unfold UPanel.get_line_tag, first_match, tag_rules, contains_any.
  set (l := strip (lower line)).
  cbn [find fst snd existsb option_map].
  rewrite !orb_false_r.
  destruct (contains "error" l || contains "failed" l); [reflexivity|].
  destruct (contains "successfully" l || contains "done" l); [reflexivity|].
  destruct (contains "warning" l); [reflexivity|].
  destruct (startswith_any l _); [reflexivity|].
  destruct (startswith_any l _); reflexivity.
Qed.

(** X18: the tag of an ASCII line does not depend on the case of its
    letters nor on the blanks around it: case-folding the line, trimming
    it, or both, gives the same tag. *)
Theorem get_line_tag_ignores_case_and_blanks (line : string)
    (Hline : Text.ascii_only line = true) :
  u_tag (lower line) = u_tag line /\
  u_tag (strip line) = u_tag line /\
  u_tag (strip (lower line)) = u_tag line.
Proof.
  pose proof (lower_ascii_only line Hline) as Hl.
  pose proof (strip_ascii_only line Hline) as Hs.
  pose proof (strip_ascii_only _ Hl) as Hsl.
  rewrite (lower_ascii line Hline), (strip_ascii line Hline),
    (strip_ascii _ Hl).
  rewrite !u_tag_ascii by assumption.
  unfold get_line_tag.
  rewrite lower_idem, (lower_strip line), strip_idem.
  rewrite (lower_strip (Py.lower line)), lower_idem, strip_idem.
  auto.
Qed.

End OverBuiltins.

Lemma unmatched_line_frame_witness :
  let step := UPanel.ui_step Py.lower Py.strip UPanel.ascii_search
                Py.int_of_str UPanel.exact_fraction UPanel.exact_percent in
  let p := step (new_panel "Firefox")
             (Queued (AppendLog ":: Retrieving packages...")) in
  let p' := step p (Queued (ParseProgress " firefox  12.5 MiB/s 58%")) in
  last_milestone p' = last_milestone p /\
  cancel_sensitive p' = cancel_sensitive p /\
  cancelled p' = cancelled p /\
  cancel_callbacks p' = cancel_callbacks p.
Proof.
  apply (unmatched_line_frame Py.lower Py.strip UPanel.ascii_search
           Py.int_of_str UPanel.exact_fraction UPanel.exact_percent
           (UPanel.ui_step Py.lower Py.strip UPanel.ascii_search
              Py.int_of_str UPanel.exact_fraction UPanel.exact_percent
              (new_panel "Firefox")
              (Queued (AppendLog ":: Retrieving packages...")))
           (ParseProgress " firefox  12.5 MiB/s 58%")).
  reflexivity.
Defined.

Lemma get_line_tag_first_match_witness :
  (forall line,
     UPanel.get_line_tag Py.lower Py.strip line
     = first_match (Py.strip (Py.lower line))) /\
  UPanel.get_line_tag Py.lower Py.strip "error: could not open file" = Some "error" /\
  UPanel.get_line_tag Py.lower Py.strip "transaction failed" = Some "error" /\
  UPanel.get_line_tag Py.lower Py.strip "Done." = Some "success" /\
  UPanel.get_line_tag Py.lower Py.strip "warning: dependency cycle" = Some "warning" /\
  UPanel.get_line_tag Py.lower Py.strip "installing firefox..." = Some "info" /\
  UPanel.get_line_tag Py.lower Py.strip "Packages (3): " = Some "dim" /\
  UPanel.get_line_tag Py.lower Py.strip "" = None.
Proof.
  apply (get_line_tag_first_match Py.lower Py.strip);
    intros s _; reflexivity.
Defined.

Lemma get_line_tag_ignores_case_and_blanks_witness :
  UPanel.get_line_tag Py.lower Py.strip (Py.lower "  Transaction FAILED ")
  = UPanel.get_line_tag Py.lower Py.strip "  Transaction FAILED " /\
  UPanel.get_line_tag Py.lower Py.strip (Py.strip "  Transaction FAILED ")
  = UPanel.get_line_tag Py.lower Py.strip "  Transaction FAILED " /\
  UPanel.get_line_tag Py.lower Py.strip (Py.strip (Py.lower "  Transaction FAILED "))
  = UPanel.get_line_tag Py.lower Py.strip "  Transaction FAILED ".
Proof.
  apply (get_line_tag_ignores_case_and_blanks Py.lower Py.strip
           (fun s _ => eq_refl) (fun s _ => eq_refl) "  Transaction FAILED ").
  reflexivity.
Defined.

Lemma milestone_is_the_only_cause_witness :
  let step := UPanel.ui_step Py.lower Py.strip UPanel.ascii_search
                Py.int_of_str UPanel.exact_fraction UPanel.exact_percent in
  let p' := step (new_panel "Firefox")
              (Queued (AppendLog ":: Processing package changes...")) in
  exists kw f,
    In (kw, f) MILESTONES /\
    contains kw (Py.lower ":: Processing package changes...") = true /\
    last_milestone (new_panel "Firefox") < f /\
    last_milestone p' = f /\
    (cancel_sensitive p' = false ->
     cancel_sensitive (new_panel "Firefox") = true ->
     CANCEL_CUTOFF <= f).
Proof.
  apply (milestone_is_the_only_cause Py.lower Py.strip UPanel.ascii_search
           Py.int_of_str UPanel.exact_fraction UPanel.exact_percent
           (new_panel "Firefox")
           (AppendLog ":: Processing package changes...")).
  right. split; reflexivity.
Defined.

Lemma downloading_name_line_witness :
  let p := UPanel.session Py.lower Py.strip UPanel.ascii_search
             Py.int_of_str UPanel.exact_fraction UPanel.exact_percent
             "Firefox" [Queued (AppendLog ":: Retrieving packages...")] in
  let p' := UPanel.parse_progress Py.lower Py.strip UPanel.ascii_search
              Py.int_of_str UPanel.exact_fraction UPanel.exact_percent
              " firefox-138.0.4-1 downloading..." p in
  set_fraction_calls p' = set_fraction_calls p /\
  last_milestone p' = last_milestone p /\
  pulsing p' = pulsing p /\
  subtitle p' = "Downloading firefox-138.0.4-1…".
Proof.
  apply (downloading_name_line Py.lower Py.strip UPanel.ascii_search
           Py.int_of_str UPanel.exact_fraction UPanel.exact_percent
           (UPanel.session Py.lower Py.strip UPanel.ascii_search
              Py.int_of_str UPanel.exact_fraction UPanel.exact_percent
              "Firefox" [Queued (AppendLog ":: Retrieving packages...")])
           " firefox-138.0.4-1 downloading..."); reflexivity.
Defined.

Lemma milestones_strictly_increase_witness :
  let step := UPanel.ui_step Py.lower Py.strip UPanel.ascii_search
                Py.int_of_str UPanel.exact_fraction UPanel.exact_percent in
  let run := UPanel.ui_run Py.lower Py.strip UPanel.ascii_search
               Py.int_of_str UPanel.exact_fraction UPanel.exact_percent in
  last_milestone
    (step (new_panel "Firefox") (Queued (AppendLog "installing firefox...")))
    = 0.85 /\
  0.85 < 0.95 /\
  last_milestone
    (step
       (run [Queued (AppendLog "upgrading firefox...")]
          (step (new_panel "Firefox")
             (Queued (AppendLog "installing firefox..."))))
       (Queued (AppendLog ":: Running post-transaction hooks...")))
    = 0.95.
Proof.
  apply (milestones_strictly_increase Py.lower Py.strip UPanel.ascii_search
           Py.int_of_str UPanel.exact_fraction UPanel.exact_percent
           (new_panel "Firefox")
           (AppendLog "installing firefox...")
           (AppendLog ":: Running post-transaction hooks...")
           [Queued (AppendLog "upgrading firefox...")]
           "installing" "running post-transaction hooks"); reflexivity.
Defined.

(** ** Extra properties of the page navigation *)

Module NavigationFacts.
Import Py Navigation NavigationProps.

Lemma mark_dots_length ds : forall i page, length (mark_dots i page ds) = length ds.
Proof. induction ds as [|d r IH]; intros i page; cbn; [|rewrite IH]; reflexivity. Qed.

Lemma mark_dots_nth ds : forall i0 page i d,
  nth_error (mark_dots i0 page ds) i = Some d ->
  active d = (i0 + i =? page)%nat /\
  completed d = (i0 + i <? page)%nat /\
  exists d0, nth_error ds i = Some d0 /\ tooltip d = tooltip d0.
Proof.
  induction ds as [|d0 r IH]; intros i0 page i d H.
  - destruct i; discriminate.
  - destruct i as [|i]; cbn [mark_dots nth_error] in H.
    + injection H as <-. cbn [active completed tooltip].
      rewrite Nat.add_0_r. split; [reflexivity|split; [|exists d0; split; reflexivity]].
      destruct (i0 =? page)%nat eqn:E; cbn [negb andb]; [|reflexivity].
      apply Nat.eqb_eq in E. subst. symmetry. apply Nat.ltb_irrefl.
    + apply IH in H. now rewrite <- Nat.add_succ_comm.
Qed.

Lemma mark_dots_again ds : forall i p q,
  mark_dots i p (mark_dots i q ds) = mark_dots i p ds.
Proof.
  induction ds as [|d r IH]; intros i p q; [reflexivity|].
  cbn [mark_dots tooltip]. now rewrite IH.
Qed.

Lemma init_dots_marked titles count : forall i,
  mark_dots i 0 (init_dots titles i count) = init_dots titles i count.
Proof.
  induction count as [|k IH]; intros i; [reflexivity|].
  cbn [init_dots mark_dots tooltip]. rewrite IH.
  now destruct i.
Qed.

Lemma init_dots_length titles count : forall i,
  length (init_dots titles i count) = count.
Proof. induction count as [|k IH]; intros i; cbn; [|rewrite IH]; reflexivity. Qed.

(** X19: after set_page the dot of the page, and only that dot, is active,
    exactly the dots before it are completed, and the number of dots and
    their tooltips are as before; so at most one dot is active, and none is
    when the page is past the last dot. *)
Theorem set_page_marks_dots (page : nat) (pd : progress_dots) :
  let pd' := set_page page pd in
  length (dots pd') = length (dots pd) /\
  (forall i d, nth_error (dots pd') i = Some d ->
     active d = (i =? page)%nat /\ completed d = (i <? page)%nat /\
     exists d0, nth_error (dots pd) i = Some d0 /\ tooltip d = tooltip d0) /\
  (length (dots pd) <= page ->
   forall d, In d (dots pd') -> active d = false /\ completed d = true)%nat /\
  accessible_label pd' =
    accessible_description (page_titles pd) (length (dots pd)) page.
Proof.
  cbn zeta. cbn [set_page dots accessible_label].
  split; [apply mark_dots_length|split; [|split; [|reflexivity]]].
  - intros i d H. now apply mark_dots_nth in H.
  - intros Hlen d Hd. apply In_nth_error in Hd as [i Hi].
    assert (Hi' : (i < length (mark_dots 0 page (dots pd)))%nat)
      by (apply nth_error_Some; congruence).
    rewrite mark_dots_length in Hi'.
    apply mark_dots_nth in Hi as (Ha & Hc & _). cbn [Nat.add] in *.
    rewrite Ha, Hc. split.
    + apply Nat.eqb_neq. lia.
    + apply Nat.ltb_lt. lia.
Qed.

Lemma set_page_marks_dots_witness :
  active {| active := false; completed := true; tooltip := "Welcome" |} = false /\
  completed {| active := false; completed := true; tooltip := "Welcome" |} = true.
Proof.
  apply (proj1 (proj2 (proj2
           (set_page_marks_dots 5 (new_progress_dots 2 ["Welcome"; "Browsers"]))))).
  - cbn. lia.
  - cbn. now left.
Defined.

Lemma new_window_settled titles : settled titles (new_window titles).
Proof.
  unfold settled, new_window.
  cbn [current_page page_count visible_child back_visible progress closed
       next_is_finish new_progress_dots dots].
  rewrite init_dots_marked.
  repeat split; try reflexivity; try lia; try discriminate.
  intros Hne. destruct titles; [contradiction|reflexivity].
Qed.

Lemma navigate_settled titles w page t :
  settled titles w -> closed w = false -> (page < page_count w)%nat ->
  settled titles (_navigate (with_page page t w)).
Proof.
  intros (H1 & H2 & H3 & H4 & H5 & H6 & H7) Hc Hp.
  unfold settled, _navigate, with_page.
  cbn [current_page page_count visible_child back_visible progress closed
       next_is_finish set_page dots].
  rewrite H5, mark_dots_again.
  repeat split; auto; try congruence.
  intros _. destruct (Z.eqb_spec (Z.of_nat page) (Z.of_nat (page_count w) - 1));
    symmetry; [apply Nat.eqb_eq|apply Nat.eqb_neq]; lia.
Qed.

Lemma nav_step_settled titles w c :
  settled titles w -> settled titles (nav_step w c).
Proof.
  intros Hs. unfold nav_step. destruct (closed w) eqn:Ec; [exact Hs|].
  pose proof Hs as (H1 & H2 & H3 & H4 & H5 & H6 & H7).
  destruct c; [unfold _on_back|unfold _on_next].
  - destruct (Nat.ltb_spec 0 (current_page w)); [|exact Hs].
    apply navigate_settled; auto. lia.
  - destruct (Z.ltb_spec (Z.of_nat (current_page w)) (Z.of_nat (page_count w) - 1)).
    + apply navigate_settled; auto. lia.
    + unfold settled, close.
      cbn [current_page page_count visible_child back_visible progress closed
           next_is_finish].
      repeat split; auto. intros _. lia.
Qed.

(** X20: whatever navigation buttons are clicked, the current page stays
    within the pages, the stack shows the child named after it ("welcome",
    then page_0, page_1, ...), the back button is hidden exactly on the
    first page, the dots mark the current page, the window is closed only
    on the last page, and, when pages.yaml gave at least one page, the
    next button has its "Get Started" style exactly on the last page. *)
Theorem navigation_stays_consistent (titles : list string) (cs : list click) :
  let w := nav_run cs (new_window titles) in
  (current_page w < page_count w)%nat /\
  page_count w = (1 + length titles)%nat /\
  visible_child w = child_name (current_page w) /\
  back_visible w = negb (current_page w =? 0)%nat /\
  dots (progress w) =
    mark_dots 0 (current_page w)
      (init_dots ("Welcome" :: titles) 0 (1 + length titles)) /\
  (closed w = true -> current_page w = (page_count w - 1)%nat) /\
  (titles <> [] ->
   next_is_finish w = (current_page w =? page_count w - 1)%nat).
Proof.
  cbn zeta. change (settled titles (nav_run cs (new_window titles))).
  generalize (new_window_settled titles). generalize (new_window titles).
  induction cs as [|c cs IH]; intros w Hw; [exact Hw|].
  cbn [nav_run fold_left]. apply IH. now apply nav_step_settled.
Qed.

Lemma navigation_stays_consistent_witness :
  next_is_finish (nav_run [Next] (new_window ["Browsers"])) = true.
Proof.
  apply (proj2 (proj2 (proj2 (proj2 (proj2 (proj2
           (navigation_stays_consistent ["Browsers"] [Next]))))))).
  discriminate.
Defined.

Lemma next_step w :
  closed w = false -> (current_page w + 1 < page_count w)%nat ->
  nav_step w Next = _navigate (with_page (current_page w + 1) SLIDE_LEFT w).
Proof.
  intros Hc Hlt. unfold nav_step, _on_next. rewrite Hc.
  destruct (Z.ltb_spec (Z.of_nat (current_page w)) (Z.of_nat (page_count w) - 1));
    [reflexivity|lia].
Qed.

Lemma back_step w :
  closed w = false -> (0 < current_page w)%nat ->
  nav_step w Back = _navigate (with_page (current_page w - 1) SLIDE_RIGHT w).
Proof.
  intros Hc Hlt. unfold nav_step, _on_back. rewrite Hc.
  destruct (Nat.ltb_spec 0 (current_page w)); [reflexivity|lia].
Qed.

(** X21: on a window that is not on its last page, Next followed by Back
    comes back to the same page: the same current page, visible child,
    back button and dots; and Back on the first page does nothing. *)
Theorem back_undoes_next (titles : list string) (cs : list click) :
  let w := nav_run cs (new_window titles) in
  (closed w = false -> (current_page w + 1 < page_count w)%nat ->
   let w' := nav_step (nav_step w Next) Back in
   current_page w' = current_page w /\
   visible_child w' = visible_child w /\
   back_visible w' = back_visible w /\
   dots (progress w') = dots (progress w) /\
   closed w' = false) /\
  (current_page w = 0%nat -> nav_step w Back = w).
Proof.
  cbn zeta. set (w := nav_run cs (new_window titles)).
  assert (Hs : settled titles w).
  { subst w. generalize (new_window_settled titles). generalize (new_window titles).
    induction cs as [|c cs IH]; intros w Hw; [exact Hw|].
    cbn [nav_run fold_left]. apply IH. now apply nav_step_settled. }
  destruct Hs as (H1 & H2 & H3 & H4 & H5 & H6 & H7).
  split.
  - intros Hc Hlt. cbn zeta.
    rewrite (next_step w Hc Hlt).
    set (w1 := _navigate (with_page (current_page w + 1) SLIDE_LEFT w)).
    assert (Hc1 : closed w1 = false) by exact Hc.
    assert (Hp1 : (0 < current_page w1)%nat) by (cbn; lia).
    rewrite (back_step w1 Hc1 Hp1).
    cbn [current_page visible_child back_visible progress closed
         _navigate with_page set_page dots w1].
    replace (current_page w + 1 - 1)%nat with (current_page w) by lia.
    rewrite !mark_dots_again, H5, mark_dots_again, H3, H4.
    repeat split; auto.
  - intros H0. unfold nav_step, _on_back. rewrite H0.
    now destruct (closed w).
Qed.

Lemma back_undoes_next_witness :
  let w := nav_run [Next] (new_window ["Browsers"; "Apps"]) in
  let w' := nav_step (nav_step w Next) Back in
  current_page w' = current_page w /\
  visible_child w' = visible_child w /\
  back_visible w' = back_visible w /\
  dots (progress w') = dots (progress w) /\
  closed w' = false.
Proof.
  apply (proj1 (back_undoes_next ["Browsers"; "Apps"] [Next]));
    [reflexivity|cbn; lia].
Defined.

End NavigationFacts.

(** ** Extra properties of the browser cards *)

Module BrowsersFacts.
Import Py Browsers.

(** X22: setting an installed browser as default and the step after an
    installation make the same setBrowser call: both take the first
    variant whose check path exists, call with its desktop entry when that
    is not empty, and make no call otherwise, even if a later variant has
    one. *)
Theorem default_calls_agree (path_exists : string -> bool)
    (variants : list variant) :
  set_default_call path_exists variants = post_install_call path_exists variants /\
  (forall d, post_install_call path_exists variants = Some d ->
     d <> "" /\
     exists before v after,
       variants = before ++ v :: after /\
       forallb (fun u => negb (path_exists (get (check u)))) before = true /\
       path_exists (get (check v)) = true /\ get (desktop v) = d) /\
  (post_install_call path_exists variants = None ->
     forallb (fun u => negb (path_exists (get (check u)))) variants = true \/
     exists before v after,
       variants = before ++ v :: after /\
       forallb (fun u => negb (path_exists (get (check u)))) before = true /\
       path_exists (get (check v)) = true /\ get (desktop v) = "").
Proof.
  unfold set_default_call.
  induction variants as [|v r (IH1 & IH2 & IH3)].
  - repeat split; try discriminate. intros _. now left.
  - cbn [desktop_to_set post_install_call forallb].
    destruct (path_exists (get (check v))) eqn:E; cbn [negb andb].
    + split; [reflexivity|split].
      * intros d Hd.
        destruct (get (desktop v)) as [|c t] eqn:Ed; [discriminate|].
        cbn in Hd. injection Hd as <-. split; [discriminate|].
        exists [], v, r. repeat split; auto.
      * intros Hn. right.
        destruct (get (desktop v)) as [|c t] eqn:Ed; [|discriminate].
        exists [], v, r. repeat split; auto.
    + split; [exact IH1|split].
      * intros d Hd. destruct (IH2 d Hd) as (Hne & b & u & a & -> & Hb & Hu & Hd').
        split; [exact Hne|]. exists (v :: b), u, a.
        cbn [app forallb]. rewrite E, Hb. repeat split; auto.
      * intros Hn. destruct (IH3 Hn) as [Hall|(b & u & a & -> & Hb & Hu & Hd')].
        -- now left.
        -- right. exists (v :: b), u, a.
           cbn [app forallb]. rewrite E, Hb. repeat split; auto.
Qed.

Lemma default_calls_agree_witness :
  "firefox.desktop" <> "" /\
  exists before v after,
    [ {| check := Some "/usr/bin/firefox-esr"; desktop := Some "firefox-esr.desktop" |};
      {| check := Some "/usr/bin/firefox"; desktop := Some "firefox.desktop" |} ]
    = before ++ v :: after /\
    forallb (fun u => negb (String.eqb (get (check u)) "/usr/bin/firefox")) before = true /\
    String.eqb (get (check v)) "/usr/bin/firefox" = true /\
    get (desktop v) = "firefox.desktop".
Proof.
  apply (proj1 (proj2 (default_calls_agree
           (fun p => String.eqb p "/usr/bin/firefox")
           [ {| check := Some "/usr/bin/firefox-esr"; desktop := Some "firefox-esr.desktop" |};
             {| check := Some "/usr/bin/firefox"; desktop := Some "firefox.desktop" |} ]))).
  reflexivity.
Defined.

(** X23: when the empty path does not exist, the three places that decide
    whether a browser is installed agree: the card's own check, the
    refresh of the cards and the click handler; refresh and set-default
    pick the same desktop entry; and a card is shown as the default only
    if it is installed. *)
Theorem installed_views_agree (path_exists : string -> bool)
    (Hempty : path_exists "" = false) (variants : list variant) :
  select_is_installed path_exists variants = _check_installed path_exists variants /\
  fst (detect path_exists variants) = _check_installed path_exists variants /\
  snd (detect path_exists variants) = desktop_to_set path_exists variants /\
  (forall current, refreshed_selected path_exists variants current = true ->
     _check_installed path_exists variants = true /\
     desktop_to_set path_exists variants = Some current).
Proof.
  assert (Hne : forall p, negb (is_empty p) && path_exists p = path_exists p).
  { intros [|c t]; [now rewrite Hempty|reflexivity]. }
  assert (H : select_is_installed path_exists variants
                = _check_installed path_exists variants /\
              fst (detect path_exists variants)
                = _check_installed path_exists variants /\
              snd (detect path_exists variants)
                = desktop_to_set path_exists variants).
  { unfold select_is_installed.
    induction variants as [|v r (IH1 & IH2 & IH3)]; [auto|].
    cbn [existsb _check_installed detect desktop_to_set]. rewrite Hne.
    destruct (path_exists (get (check v))); cbn [orb fst snd]; auto. }
  destruct H as (H1 & H2 & H3). repeat split; auto.
  - unfold refreshed_selected in H.
    destruct (detect path_exists variants) as [inst dsk]. cbn [fst] in H2.
    apply andb_prop in H as [H _]. congruence.
  - unfold refreshed_selected in H.
    destruct (detect path_exists variants) as [inst [d|]]; cbn [snd] in H3;
      apply andb_prop in H as [_ H]; [|discriminate].
    apply String.eqb_eq in H. congruence.
Qed.

Lemma installed_views_agree_witness :
  select_is_installed (fun p => String.eqb p "/usr/bin/firefox")
    [ {| check := Some "/usr/bin/firefox"; desktop := Some "firefox.desktop" |} ]
  = _check_installed (fun p => String.eqb p "/usr/bin/firefox")
    [ {| check := Some "/usr/bin/firefox"; desktop := Some "firefox.desktop" |} ].
Proof.
  apply (installed_views_agree (fun p => String.eqb p "/usr/bin/firefox")).
  reflexivity.
Defined.

End BrowsersFacts.

(** ** Extra properties of the utility functions *)

Module UtilsFacts.
Import Py Utils.

Lemma starts_with_char a c r : startswith (String c r) (String a "") = Ascii.eqb a c.
Proof.
  unfold startswith. cbn [prefix].
  destruct (ascii_dec a c) as [->|Hne].
  - rewrite Ascii.eqb_refl. now destruct r.
  - apply Ascii.eqb_neq in Hne. now rewrite Hne.
Qed.

Lemma contains_char_cons a c r :
  contains (String a "") (String c r) = Ascii.eqb a c || contains (String a "") r.
Proof. cbn [contains]. now rewrite starts_with_char. Qed.

Lemma split_once_contains sep s :
  contains (String sep "") s = true ->
  exists k v, split_once sep s = Some (k, v) /\
              contains (String sep "") k = false /\
              s = (k ++ String sep v)%string.
Proof.
  induction s as [|c r IH]; [discriminate|].
  rewrite contains_char_cons. cbn [split_once].
  rewrite (Ascii.eqb_sym sep c).
  destruct (Ascii.eqb c sep) eqn:E.
  - intros _. apply Ascii.eqb_eq in E. subst c.
    exists "", r. repeat split; reflexivity.
  - cbn [orb]. intros H. destruct (IH H) as (k & v & -> & Hk & ->).
    exists (String c k), v. repeat split.
    rewrite contains_char_cons, (Ascii.eqb_sym sep c), E. exact Hk.
Qed.

Lemma split_once_at sep k v :
  contains (String sep "") k = false ->
  split_once sep (k ++ String sep v) = Some (k, v).
Proof.
  induction k as [|c k IH]; intros Hk; cbn [String.append split_once].
  - now rewrite Ascii.eqb_refl.
  - rewrite contains_char_cons in Hk. apply orb_false_iff in Hk as [Hc Hk].
    rewrite (Ascii.eqb_sym c sep), Hc. now rewrite IH.
Qed.

Lemma contains_lstrip a s :
  is_space a = false ->
  contains (String a "") s = true -> contains (String a "") (lstrip s) = true.
Proof.
  intros Ha. induction s as [|c r IH]; [discriminate|].
  cbn [lstrip]. destruct (is_space c) eqn:Ec; [|auto].
  rewrite contains_char_cons.
  destruct (Ascii.eqb a c) eqn:E; [|exact IH].
  apply Ascii.eqb_eq in E. congruence.
Qed.

Lemma contains_rstrip a s :
  is_space a = false ->
  contains (String a "") s = true -> contains (String a "") (rstrip s) = true.
Proof.
  intros Ha. induction s as [|c r IH]; [discriminate|].
  rewrite contains_char_cons. cbn [rstrip].
  destruct (Ascii.eqb a c) eqn:E.
  - intros _. apply Ascii.eqb_eq in E. subst c. rewrite Ha.
    destruct (rstrip r); rewrite contains_char_cons, Ascii.eqb_refl; reflexivity.
  - cbn [orb]. intros H. specialize (IH H).
    destruct (rstrip r) as [|b t]; [discriminate|].
    rewrite contains_char_cons, E. exact IH.
Qed.

Lemma rstrip_by_blanks p s q :
  Re.all_chars p q = true -> rstrip_by p (s ++ q) = rstrip_by p s.
Proof.
  intros Hq. induction s as [|c r IH]; cbn [String.append rstrip_by].
  - induction q as [|a q IHq]; [reflexivity|].
    cbn [Re.all_chars] in Hq. apply andb_prop in Hq as [Ha Hq].
    cbn [rstrip_by]. now rewrite IHq, Ha.
  - now rewrite IH.
Qed.

Lemma lstrip_by_blanks p q s :
  Re.all_chars p q = true -> lstrip_by p (q ++ s) = lstrip_by p s.
Proof.
  intros Hq. induction q as [|a q IHq]; [reflexivity|].
  cbn [Re.all_chars] in Hq. apply andb_prop in Hq as [Ha Hq].
  cbn [String.append lstrip_by]. now rewrite Ha, IHq.
Qed.

Lemma lstrip_by_stable_app p s t :
  s <> "" -> lstrip_by p s = s -> lstrip_by p (s ++ t) = (s ++ t)%string.
Proof.
  destruct s as [|c r]; [contradiction|]. intros _.
  cbn [String.append lstrip_by]. destruct (p c) eqn:E; [|reflexivity].
  intros H. exfalso.
  assert (Hlen : forall u, (String.length (lstrip_by p u) <= String.length u)%nat).
  { induction u as [|a u IHu]; cbn; [lia|]. destruct (p a); cbn; lia. }
  specialize (Hlen r). rewrite H in Hlen. cbn in Hlen. lia.
Qed.

Lemma rstrip_is_rstrip_by s : rstrip s = rstrip_by is_space s.
Proof.
  induction s as [|c r IH]; [reflexivity|]. cbn [rstrip rstrip_by]. now rewrite IH.
Qed.

Lemma lstrip_is_lstrip_by s : lstrip s = lstrip_by is_space s.
Proof.
  induction s as [|c r IH]; [reflexivity|]. cbn [lstrip lstrip_by]. now rewrite IH.
Qed.

(** Stripping a text that is stable under the strip, between blanks. *)
Lemma strip_by_padded p q1 s q2 :
  Re.all_chars p q1 = true -> Re.all_chars p q2 = true ->
  rstrip_by p (lstrip_by p s) = s ->
  rstrip_by p (lstrip_by p (q1 ++ s ++ q2)) = s.
Proof.
  intros H1 H2 Hs. rewrite lstrip_by_blanks by exact H1.
  destruct s as [|c r].
  - cbn [String.append]. clear Hs H1.
    induction q2 as [|a q IH]; [reflexivity|].
    cbn [Re.all_chars] in H2. apply andb_prop in H2 as [Ha Hq].
    cbn [lstrip_by]. rewrite Ha. now apply IH.
  - assert (Hc : p c = false).
    { destruct (p c) eqn:E; [|reflexivity]. exfalso.
      cbn [lstrip_by] in Hs. rewrite E in Hs.
      assert (Hl : forall u, (String.length (lstrip_by p u) <= String.length u)%nat).
      { induction u as [|a u IHu]; cbn; [lia|]. destruct (p a); cbn; lia. }
      assert (Hr : forall u, (String.length (rstrip_by p u) <= String.length u)%nat).
      { induction u as [|a u IHu]; cbn; [lia|].
        destruct (rstrip_by p u); [destruct (p a)|]; cbn in *; lia. }
      specialize (Hl r). specialize (Hr (lstrip_by p r)).
      rewrite Hs in Hr. cbn in Hr. lia. }
    cbn [lstrip_by] in Hs. rewrite Hc in Hs.
    cbn [String.append lstrip_by]. rewrite Hc.
    change (String c (r ++ q2)) with (String c r ++ q2)%string.
    now rewrite rstrip_by_blanks.
Qed.

Lemma dict_get_set d k v default : dict_get (dict_set d k v) k default = v.
Proof.
  unfold dict_get. induction d as [|[k' v'] r IH]; cbn [dict_set InstallPanel.dict_get].
  - now rewrite String.eqb_refl.
  - destruct (String.eqb k' k) eqn:E; cbn [InstallPanel.dict_get]; now rewrite E.
Qed.

Lemma dict_get_set_other d k v k' default :
  k' <> k -> dict_get (dict_set d k v) k' default = dict_get d k' default.
Proof.
  intros Hne. unfold dict_get.
  induction d as [|[k0 v0] r IH]; cbn [dict_set InstallPanel.dict_get].
  - destruct (String.eqb_spec k k'); [congruence|reflexivity].
  - destruct (String.eqb_spec k0 k) as [->|Hk]; cbn [InstallPanel.dict_get].
    + destruct (String.eqb_spec k k'); [congruence|reflexivity].
    + now rewrite IH.
Qed.

(** X24: the fallback of parse_os_release reads a line KEY=VALUE back: when
    the line, as str.strip trims it, is the key, "=" and the value wrapped
    in any quotes, the key holds no "=" and the value has no quote at its
    own ends, the line stores exactly the value under the key, replacing
    an earlier value of that key and leaving the other keys alone. *)
Theorem os_release_line_round_trip (strip : string -> string)
    (k v q1 q2 : string) (info : dict) :
  let body := (k ++ String "=" (q1 ++ v ++ q2))%string in
  strip (body ++ NL)%string = body ->
  contains "=" k = false ->
  Re.all_chars (Re.one_of QUOTES) q1 = true ->
  Re.all_chars (Re.one_of QUOTES) q2 = true ->
  strip_chars QUOTES v = v ->
  parse_line strip (body ++ NL)%string info = Some (dict_set info k v) /\
  (forall default, dict_get (dict_set info k v) k default = v) /\
  (forall k' default, k' <> k ->
     dict_get (dict_set info k v) k' default = dict_get info k' default).
Proof.
  cbn zeta. intros Hstrip Hk H1 H2 Hv.
  set (body := (k ++ String "=" (q1 ++ v ++ q2))%string) in *.
  split; [|split; [apply dict_get_set|intros; now apply dict_get_set_other]].
  unfold parse_line.
  assert (Hc : contains "=" (body ++ NL) = true).
  { subst body. clear.
    induction k as [|c k IH]; cbn [String.append]; rewrite contains_char_cons.
    - now rewrite Ascii.eqb_refl.
    - rewrite IH. apply orb_true_r. }
  rewrite Hc, Hstrip. subst body. rewrite split_once_at by exact Hk.
  unfold strip_chars in *. now rewrite strip_by_padded.
Qed.

Lemma os_release_line_round_trip_witness :
  parse_line Py.strip
    ("NAME=" ++ String "034" ("BigLinux" ++ String "034" "") ++ NL)%string
    [("NAME", "old"); ("VERSION", "2024")]
  = Some (dict_set [("NAME", "old"); ("VERSION", "2024")] "NAME" "BigLinux").
Proof.
  apply (os_release_line_round_trip Py.strip "NAME" "BigLinux"
           (String "034" "") (String "034" "")
           [("NAME", "old"); ("VERSION", "2024")]); reflexivity.
Defined.

(** X25: on an ASCII line of the file, the unpacking
    [k, v = line.strip().split("=", 1)] of the fallback of parse_os_release
    never fails: a line without "=" leaves the dictionary as it is, and a
    line with "=" stores, under the trimmed text before its first "=" (a
    key that holds no "="), the rest with the quotes at its ends removed. *)
Theorem os_release_unpacking_never_fails (strip : string -> string)
    (line : string) (info : dict)
    (Hstrip : Text.agrees_on_ascii strip Py.strip)
    (Hline : Text.ascii_only line = true) :
  (exists d, parse_line strip line info = Some d) /\
  (contains "=" line = false -> parse_line strip line info = Some info) /\
  (contains "=" line = true ->
   exists k v, split_once "=" (strip line) = Some (k, v) /\
     contains "=" k = false /\
     parse_line strip line info = Some (dict_set info k (strip_chars QUOTES v))).
Proof.
  assert (H3 : contains "=" line = true ->
    exists k v, split_once "=" (strip line) = Some (k, v) /\
      contains "=" k = false /\
      parse_line strip line info = Some (dict_set info k (strip_chars QUOTES v))).
  { intros E. unfold parse_line. rewrite E, (Hstrip line Hline).
    assert (H : contains "=" (Py.strip line) = true).
    { unfold Py.strip. apply contains_rstrip; [reflexivity|].
      apply contains_lstrip; [reflexivity|exact E]. }
    apply split_once_contains in H as (k & v & -> & Hk & _). eauto. }
  split; [|split; [|exact H3]].
  - destruct (contains "=" line) eqn:E.
    + destruct (H3 eq_refl) as (k & v & _ & _ & ->). eauto.
    + unfold parse_line. rewrite E. eauto.
  - intros E. unfold parse_line. now rewrite E.
Qed.

Lemma os_release_unpacking_never_fails_witness :
  (exists d, parse_line Py.strip "ID=biglinux=x  " [] = Some d) /\
  (contains "=" "ID=biglinux=x  " = false ->
   parse_line Py.strip "ID=biglinux=x  " [] = Some []) /\
  (contains "=" "ID=biglinux=x  " = true ->
   exists k v, split_once "=" (Py.strip "ID=biglinux=x  ") = Some (k, v) /\
     contains "=" k = false /\
     parse_line Py.strip "ID=biglinux=x  " []
     = Some (dict_set [] k (strip_chars QUOTES v))).
Proof.
  apply (os_release_unpacking_never_fails Py.strip "ID=biglinux=x  " []);
    [intros s _; reflexivity|reflexivity].
Defined.

(** X26: get_logo_path returns the first of the three candidate paths
    (the bare logo name, then .png, then .svg under /usr/share/pixmaps)
    that exists, and nothing exactly when none exists; when os-release has
    no LOGO entry the first candidate is the pixmaps directory itself,
    which is returned whenever it exists. *)
Theorem logo_path_is_first_existing (path_exists : string -> bool)
    (os_info : dict) :
  let logo := dict_get os_info "LOGO" "" in
  (forall p, get_logo_path path_exists os_info = Some p ->
     path_exists p = true /\
     exists before after,
       logo_candidates logo = (before ++ p :: after)%list /\
       forallb (fun c => negb (path_exists c)) before = true) /\
  (get_logo_path path_exists os_info = None <->
     forallb (fun c => negb (path_exists c)) (logo_candidates logo) = true) /\
  (logo = "" -> path_exists "/usr/share/pixmaps/" = true ->
     get_logo_path path_exists os_info = Some "/usr/share/pixmaps/").
Proof.
  cbn zeta. unfold get_logo_path.
  set (logo := dict_get os_info "LOGO" "").
  assert (Hfind : forall l p, find path_exists l = Some p ->
            path_exists p = true /\
            exists before after, l = (before ++ p :: after)%list /\
              forallb (fun c => negb (path_exists c)) before = true).
  { induction l as [|c l IH]; intros p H; [discriminate|].
    cbn [find] in H. destruct (path_exists c) eqn:E.
    - injection H as <-. split; [exact E|]. exists [], l. now split.
    - destruct (IH p H) as (Hp & b & a & -> & Hb). split; [exact Hp|].
      exists (c :: b), a. cbn [forallb app]. rewrite E, Hb. now split. }
  assert (Hnone : forall l, find path_exists l = None <->
            forallb (fun c => negb (path_exists c)) l = true).
  { induction l as [|c l IH]; [now split|].
    cbn [find forallb]. destruct (path_exists c); cbn [negb andb]; [|exact IH].
    split; discriminate. }
  split; [apply Hfind|split; [apply Hnone|]].
  intros -> He. cbn. now rewrite He.
Qed.

Lemma logo_path_is_first_existing_witness :
  get_logo_path (fun p => String.eqb p "/usr/share/pixmaps/") [("NAME", "BigLinux")]
  = Some "/usr/share/pixmaps/".
Proof.
  apply (proj2 (proj2 (logo_path_is_first_existing
           (fun p => String.eqb p "/usr/share/pixmaps/") [("NAME", "BigLinux")])));
    reflexivity.
Defined.

End UtilsFacts.
